(** * Resource limits through the cgroup pseudo-filesystem

    A shallow embedding of [libcontainer/cgroups/fs/access.go],
    [libcontainer/cgroups/fs/cpuset.go] and the daemon's [ContainerLimit]
    job, with the properties the specification states about them.

    The control hierarchy is a finite map from paths to nodes.  Every
    operation is a function from a filesystem to an outcome, the new
    filesystem and the list of operations it performed, so that both the
    effect and the order of the accesses can be stated. *)

From Stdlib Require Import ZArith Ascii.
From stdpp Require Import gmap strings list fin_maps pretty.

Local Open Scope string_scope.
Local Open Scope list_scope.

(** ** Paths

    A cleaned absolute path is the list of its components, the last
    component first: [/sys/fs/cgroup] is [["cgroup"; "fs"; "sys"]] and [/]
    is [[]].  With that, [filepath.Dir] is the tail of the list, and
    joining an element enters its components one after the other, the way
    [Clean] resolves them. *)

Abbreviation path := (list string).

Module filepath.
(** [filepath.Dir]: the parent directory; the parent of [/] is [/]. *)
Definition Dir (p : path) : path := tail p.

(** The components of an element, which may contain slashes. *)
Fixpoint split (s : string) : list string :=
  match s with
  | String ch s' =>
      if decide (ch = "/"%char) then EmptyString :: split s'
      else match split s' with
           | first :: rest => String ch first :: rest
           | [] => [String ch EmptyString]
           end
  | EmptyString => [EmptyString]
  end.

(** One component is entered as [Clean] does it: an empty component and
    [.] stay in the directory, [..] goes to the parent, and the parent of
    [/] is [/]. *)
Definition enter (dir : path) (comp : string) : path :=
  if decide (comp = "") then dir
  else if decide (comp = ".") then dir
  else if decide (comp = "..") then tail dir
  else comp :: dir.

(** [filepath.Join dir name]: the join is cleaned. *)
Definition Join (dir : path) (name : string) : path :=
  foldl enter dir (split name).

(** [path.Join root e1 ... en], the elements given first to last. *)
Definition JoinAll (root : path) (elems : list string) : path :=
  foldl Join root elems.

(** The path as Go prints it. *)
Definition to_string (p : path) : string :=
  match p with
  | [] => "/"
  | _ => foldr (fun c acc => "/" +:+ c +:+ acc) "" (rev p)
  end.
End filepath.

(** ** Errors *)

Inductive errno := ENOENT | ENOTDIR | EEXIST | EISDIR.

Inductive error :=
| PathError (op : string) (p : path) (e : errno)   (* *os.PathError *)
| ErrCanNotAccess                                  (* access.go *)
| Errorf (msg : string)                            (* fmt.Errorf *)
| NotFoundError (subsystem : string)               (* cgroups.NotFoundError *)
| OtherError (msg : string).

Inductive result (A : Type) :=
| Ok (a : A)
| Err (e : error).
Arguments Ok {A} a.
Arguments Err {A} e.

Definition is_ok {A} (r : result A) : bool :=
  match r with Ok _ => true | Err _ => false end.

(** ** The filesystem *)

Inductive node :=
| Directory
| File (data : string).

Abbreviation fsys := (gmap (list string) node).

(** The error of a failing prefix, reported for the call [op] on [p]. *)
Definition path_error (op : string) (p : path) (e : error) : error :=
  match e with
  | PathError _ _ n => PathError op p n
  | _ => e
  end.

(** Path resolution as the kernel does it: every proper prefix has to be a
    directory.  [/] always exists. *)
Fixpoint stat (fs : fsys) (p : path) : result node :=
  match p with
  | [] => Ok Directory
  | _ :: parent =>
      match stat fs parent with
      | Ok Directory =>
          match fs !! p with
          | Some n => Ok n
          | None => Err (PathError "stat" p ENOENT)
          end
      | Ok (File _) => Err (PathError "stat" p ENOTDIR)
      | Err e => Err (path_error "stat" p e)
      end
  end.

(** What the accesses are; each operation of the model records the ones it
    performs, failed attempts included. *)
Inductive op :=
| OpStat (p : path)
| OpMkdir (p : path)                 (* a directory is created *)
| OpRead (p : path)
| OpWrite (p : path) (data : string)
| OpResolve (subsystem : string)         (* d.path(subsystem) *)
| OpMountpoint (subsystem : string)      (* cgroups.FindCgroupMountpoint *)
| OpInitCgroupDir (subsystem : string).  (* cgroups.GetInitCgroupDir *)

(** A computation over the filesystem that logs events of type [E]. *)
Definition M (E A : Type) : Type := fsys -> result A * fsys * list E.

Definition ret {E A} (a : A) : M E A := fun fs => (Ok a, fs, []).

Definition fail {E A} (e : error) : M E A := fun fs => (Err e, fs, []).

Definition bind {E A B} (m : M E A) (k : A -> M E B) : M E B :=
  fun fs =>
    match m fs with
    | (Ok a, fs1, t1) =>
        match k a fs1 with
        | (r, fs2, t2) => (r, fs2, t1 ++ t2)
        end
    | (Err e, fs1, t1) => (Err e, fs1, t1)
    end.

Notation "x <- m ;; k" := (bind m (fun x => k))
  (at level 100, m at next level, right associativity).
Notation "m ;;; k" := (bind m (fun _ => k))
  (at level 100, right associativity).

(** The outcome of a computation as a value, so that the caller can look
    at the error ([if err != nil]). *)
Definition attempt {E A} (m : M E A) : M E (result A) :=
  fun fs => match m fs with (r, fs1, t1) => (Ok r, fs1, t1) end.

(** A result that needs no access. *)
Definition lift {E A} (r : result A) : M E A := fun fs => (r, fs, []).

Definition outcome {E A} (r : result A * fsys * list E) : result A := r.1.1.
Definition final {E A} (r : result A * fsys * list E) : fsys := r.1.2.
Definition trace {E A} (r : result A * fsys * list E) : list E := r.2.

(** ** The operating system's calls *)

(** The files the kernel puts into a directory created in the control
    hierarchy, with their initial contents, inserted next to the directory
    itself. *)
Definition populate (files : list (string * string)) (p : path) (fs : fsys) : fsys :=
  foldr (fun f acc => <[ f.1 :: p := File f.2 ]> acc) fs files.

(** The [mkdir] system call: the parent has to be a directory and the name
    has to be free. *)
Definition mkdir (files : list (string * string)) (p : path) (fs : fsys) : result fsys :=
  match p with
  | [] => Err (PathError "mkdir" p EEXIST)
  | _ :: parent =>
      match stat fs parent with
      | Ok Directory =>
          match fs !! p with
          | Some _ => Err (PathError "mkdir" p EEXIST)
          | None => Ok (populate files p (<[ p := Directory ]> fs))
          end
      | Ok (File _) => Err (PathError "mkdir" p ENOTDIR)
      | Err e => Err (path_error "mkdir" p e)
      end
  end.

Module os.
Definition IsNotExist (e : error) : bool :=
  match e with PathError _ _ ENOENT => true | _ => false end.

Definition IsExist (e : error) : bool :=
  match e with PathError _ _ EEXIST => true | _ => false end.

Definition Stat (p : path) : M op node :=
  fun fs => (stat fs p, fs, [OpStat p]).

(** [os.MkdirAll]: nothing to do for a directory, an error for a file,
    otherwise the parent first and then the directory itself; when the
    [mkdir] fails and the directory is there all the same, that is a
    success.  [files] is what the kernel creates inside a new
    directory. *)
Fixpoint MkdirAll (files : list (string * string)) (p : path) : M op unit :=
  fun fs =>
    match stat fs p with
    | Ok Directory => (Ok tt, fs, [])
    | Ok (File _) => (Err (PathError "mkdir" p ENOTDIR), fs, [])
    | Err _ =>
        match p with
        | [] => (Ok tt, fs, [])
        | _ :: parent =>
            match MkdirAll files parent fs with
            | (Ok _, fs1, t1) =>
                match mkdir files p fs1 with
                | Ok fs2 => (Ok tt, fs2, t1 ++ [OpMkdir p])
                | Err e =>
                    match stat fs1 p with
                    | Ok Directory => (Ok tt, fs1, t1)
                    | _ => (Err e, fs1, t1)
                    end
                end
            | (Err e, fs1, t1) => (Err e, fs1, t1)
            end
        end
    end.
End os.

Module ioutil.
Definition ReadFile (p : path) : M op string :=
  fun fs =>
    (match stat fs p with
     | Ok (File data) => Ok data
     | Ok Directory => Err (PathError "read" p EISDIR)
     | Err e => Err (path_error "open" p e)
     end, fs, [OpRead p]).

(** Creates the file or replaces its content; the directory has to
    exist.  The file is a plain store: it keeps the bytes written.  What
    the kernel makes of a value written to a control file (it may reject
    it, or render it differently when read) is not part of this model. *)
Definition WriteFile (p : path) (data : string) : M op unit :=
  fun fs =>
    match p with
    | [] => (Err (PathError "open" p EISDIR), fs, [OpWrite p data])
    | _ :: dir =>
        match stat fs dir with
        | Ok Directory =>
            match fs !! p with
            | Some Directory => (Err (PathError "open" p EISDIR), fs, [OpWrite p data])
            | _ => (Ok tt, <[ p := File data ]> fs, [OpWrite p data])
            end
        | Ok (File _) => (Err (PathError "open" p ENOTDIR), fs, [OpWrite p data])
        | Err e => (Err (path_error "open" p e), fs, [OpWrite p data])
        end
    end.
End ioutil.

Definition newline : ascii := ascii_of_nat 10.

Module bytes.
Fixpoint TrimLeft (b : string) (c : ascii) : string :=
  match b with
  | String x b' => if decide (x = c) then TrimLeft b' c else b
  | EmptyString => EmptyString
  end.

Fixpoint TrimRight (b : string) (c : ascii) : string :=
  match b with
  | String x b' =>
      match TrimRight b' c with
      | EmptyString => if decide (x = c) then EmptyString else String x EmptyString
      | r => String x r
      end
  | EmptyString => EmptyString
  end.

(** [bytes.Trim b cutset] for a cutset of one character. *)
Definition Trim (b : string) (c : ascii) : string := TrimRight (TrimLeft b c) c.
End bytes.

Module strings_.
(** [strings.TrimSuffix s suffix] for a suffix of one character. *)
Fixpoint TrimSuffix (s : string) (c : ascii) : string :=
  match s with
  | String x EmptyString => if decide (x = c) then EmptyString else s
  | String x s' => String x (TrimSuffix s' c)
  | EmptyString => EmptyString
  end.
End strings_.

Module strconv.
Definition Itoa (n : Z) : string := pretty n.
End strconv.

(** ** The data model *)

(** [configs.Cgroup], the fields this code uses. *)
Record Cgroup := {
  Name : string;
  Parent : string;
  Memory : Z;
  CpuShares : Z;
  CpusetCpus : string;
}.

(** [data]: the specification and the process to join. *)
Record data := {
  c : Cgroup;
  pid : Z;
}.

(** Modelled from the spec: [cgroups.Stats] is declared outside the given
    sources; the specification describes an aggregated mapping from
    counter names to values, kept here as the list of entries read. *)
Abbreviation Stats := (list (string * string)).

(** The [subsystem] interface, the methods the given callers use.
    [access.go] calls the apply step [Apply]; [cpuset.go] declares it as
    [Set]. *)
Record subsystem := {
  Apply : data -> M op unit;
  GetStats : path -> Stats -> M op Stats;
}.

(** The daemon's view of a container. *)
Record Config := {
  Config_Memory : Z;
  Config_CpuShares : Z;
  Config_Cpuset : string;
}.

Record Container := {
  ID : string;
  Pid : Z;
  IsRunning : bool;
  Config_of : Config;
}.

(** An [engine.Job]: its name, its arguments and its environment. *)
Record Job := {
  Job_Name : string;
  Args : list string;
  Getenv : string -> string;
  GetenvInt64 : string -> Z;
  GetenvBool : string -> bool;
}.

(** What the code takes from outside the given sources: the kernel's
    behaviour on [mkdir], the mount table, the path resolution of [data],
    the controllers other than cpuset, the registry that [GetAllStats]
    walks, and the daemon's collaborators. *)
Record env := {
  kernel_files : list (string * string);
  FindCgroupMountpoint : string -> result path;
  GetInitCgroupDir : string -> result string;
  getCgroupData : Cgroup -> Z -> result data;
  data_path : data -> string -> fsys -> result path;
  MemoryGroup : subsystem;
  CpuGroup : subsystem;
  subsystems : list (string * subsystem);
  ExecutionDriver_Parent : string;
  ToDisk : Container -> option error;
}.

Module cgroups.
Definition IsNotFound (e : error) : bool :=
  match e with NotFoundError _ => true | _ => false end.

(** The two lookups read the mount table and the cgroup of the init
    process, outside the control hierarchy; each is recorded as an
    access. *)
Definition FindCgroupMountpoint (E : env) (subsystem : string) : M op path :=
  fun fs => (FindCgroupMountpoint E subsystem, fs, [OpMountpoint subsystem]).

Definition GetInitCgroupDir (E : env) (subsystem : string) : M op string :=
  fun fs => (GetInitCgroupDir E subsystem, fs, [OpInitCgroupDir subsystem]).
End cgroups.

(** [d.path(subsystem)]: the resolution reads the environment and the
    filesystem and changes nothing. *)
Definition d_path (E : env) (d : data) (subsystem : string) : M op path :=
  fun fs => (data_path E d subsystem fs, fs, [OpResolve subsystem]).

(** Modelled from the spec: [writeFile] is declared outside the given
    sources; it writes [data] to the file [file] of the directory [dir]. *)
Definition writeFile (dir : path) (file data : string) : M op unit :=
  ioutil.WriteFile (filepath.Join dir file) data.

(** ** cpuset.go *)

Definition isEmpty (b : string) : bool :=
  bool_decide (String.length (bytes.Trim b newline) = 0).

Definition getSubsystemSettings (parent : path) : M op (string * string) :=
  cpus <- ioutil.ReadFile (filepath.Join parent "cpuset.cpus") ;;
  mems <- ioutil.ReadFile (filepath.Join parent "cpuset.mems") ;;
  ret (cpus, mems).

Definition copyIfNeeded (current parent : path) : M op unit :=
  cur <- getSubsystemSettings current ;;
  par <- getSubsystemSettings parent ;;
  (if isEmpty cur.1 then writeFile current "cpuset.cpus" par.1 else ret tt) ;;;
  (if isEmpty cur.2 then writeFile current "cpuset.mems" par.2 else ret tt).

(** The recursion is on the parent directory.  [/] always exists in this
    model, so the walk ends there at the latest. *)
Fixpoint ensureParent (E : env) (current : path) : M op unit :=
  let parent := filepath.Dir current in
  st <- attempt (os.Stat parent) ;;
  match st with
  | Err err =>
      if negb (os.IsNotExist err) then fail err
      else match current with
           | _ :: parent' => ensureParent E parent'
           | [] => fail err
           end
  | Ok _ => ret tt
  end ;;;
  mk <- attempt (os.MkdirAll (kernel_files E) current) ;;
  match mk with
  | Err err => if negb (os.IsExist err) then fail err else ret tt
  | Ok _ => ret tt
  end ;;;
  copyIfNeeded current parent.

Definition SetDir (E : env) (dir : path) (value : string) (pid : Z) : M op unit :=
  ensureParent E dir ;;;
  writeFile dir "cgroup.procs" (strconv.Itoa pid) ;;;
  writeFile dir "cpuset.cpus" value.

Definition CpusetGroup_Set (E : env) (d : data) : M op unit :=
  if decide (CpusetCpus (c d) <> "") then
    dir <- d_path E d "cpuset" ;;
    SetDir E dir (CpusetCpus (c d)) (pid d)
  else ret tt.

Definition CpusetGroup_GetStats (p : path) (stats : Stats) : M op Stats :=
  ret stats.

Definition CpusetGroup (E : env) : subsystem :=
  {| Apply := CpusetGroup_Set E; GetStats := CpusetGroup_GetStats |}.

(** ** access.go *)

(** A Go map literal is kept as the list of its entries.  A [range] over a
    map yields the entries in an order the language leaves open, and that
    may change from one loop to the next: a loop over a map takes the
    order of that run, some permutation of the entries, as an argument. *)
Definition range_order {A} (m order : list (string * A)) : Prop := order ≡ₚ m.

Definition AccessaibleSubsystems : list (string * list string) :=
  [ ("cpu", ["cpu.shares"; "cpu.cfs_period_us"; "cpu.cfs_quota_us"]);
    ("cpuset", ["cpuset.cpus"]);
    ("memory", ["memory.limit_in_bytes"; "memory.soft_limit_in_bytes";
                "memory.memsw.limit_in_bytes"]);
    ("freezer", ["freezer.state"]) ].

Definition supportedSubsystems (E : env) : list (string * subsystem) :=
  [ ("memory", MemoryGroup E);
    ("cpu", CpuGroup E);
    ("cpuset", CpusetGroup E) ].

(** The file names of the allow-list. *)
Definition accessible (subsystem : string) : Prop :=
  exists group files, (group, files) ∈ AccessaibleSubsystems /\ subsystem ∈ files.

Fixpoint findGroup (order : list (string * list string)) (subsystem : string)
  : result string :=
  match order with
  | (group, subsystems) :: rest =>
      if existsb (String.eqb subsystem) subsystems then Ok group
      else findGroup rest subsystem
  | [] => Err ErrCanNotAccess
  end.

Definition getPath (E : env) (order : list (string * list string))
    (id driver subsystem : string) : M op path :=
  cgroupRoot <- cgroups.FindCgroupMountpoint E "cpu" ;;
  let cgroupRoot := filepath.Dir cgroupRoot in
  st <- attempt (os.Stat cgroupRoot) ;;
  match st with
  | Err _ => fail (Errorf "cgroups fs not found")
  | Ok _ => ret tt
  end ;;;
  group <- lift (findGroup order subsystem) ;;
  initPath <- cgroups.GetInitCgroupDir E group ;;
  let p := filepath.JoinAll cgroupRoot [group; initPath; driver; id; subsystem] in
  st <- attempt (os.Stat p) ;;
  match st with
  | Err _ => fail (Errorf (filepath.to_string p +:+ " not found"))
  | Ok _ => ret p
  end.

Definition fs_Set (E : env) (order : list (string * list string))
    (id driver subsystem value : string) : M op unit :=
  p <- getPath E order id driver subsystem ;;
  ioutil.WriteFile p value.

Definition fs_Get (E : env) (order : list (string * list string))
    (id driver subsystem : string) : M op string :=
  p <- getPath E order id driver subsystem ;;
  data <- ioutil.ReadFile p ;;
  ret (strings_.TrimSuffix data newline).

(** The calls the two orchestrating functions make, each with the accesses
    the callee performed. *)
Inductive event :=
| EvApply (name : string) (ops : list op)
| EvPath (name : string)
| EvGetStats (name : string) (ops : list op).

Definition call {A} (ev : list op -> event) (m : M op A) : M event A :=
  fun fs => match m fs with (r, fs1, t1) => (r, fs1, [ev t1]) end.

(** The loop of [SetResources] over the registry, in the order of the
    run. *)
Fixpoint apply_each (d : data) (order : list (string * subsystem)) : M event unit :=
  match order with
  | (name, sys) :: rest =>
      call (EvApply name) (Apply sys d) ;;;
      apply_each d rest
  | [] => ret tt
  end.

Definition SetResources (E : env) (order : list (string * subsystem))
    (cg : Cgroup) (pid : Z) : M event data :=
  d <- lift (getCgroupData E cg pid) ;;
  apply_each d order ;;;
  ret d.

(** The loop of [GetAllStats]. *)
Fixpoint stats_each (E : env) (d : data) (order : list (string * subsystem))
    (stats : Stats) : M event Stats :=
  match order with
  | (name, sys) :: rest =>
      call (EvApply name) (Apply sys d) ;;;
      p <- attempt (fun fs => (data_path E d name fs, fs, [EvPath name])) ;;
      match p with
      | Err err =>
          if cgroups.IsNotFound err then stats_each E d rest stats
          else fail err
      | Ok p =>
          stats' <- call (EvGetStats name) (GetStats sys p stats) ;;
          stats_each E d rest stats'
      end
  | [] => ret stats
  end.

Definition GetAllStats (E : env) (order : list (string * subsystem))
    (cg : Cgroup) (pid : Z) : M event Stats :=
  d <- lift (getCgroupData E cg pid) ;;
  stats_each E d order [].

(** The names of the controllers whose apply step a run invoked, in the
    order of the invocations. *)
Definition applied (t : list event) : list string :=
  omap (fun ev => match ev with EvApply name _ => Some name | _ => None end) t.

(** A run of the loop is a sequence of rounds, one per controller: the
    apply step, then the resolution of the directory, then the reading of
    the statistics.  A round ends early when its apply step or its
    resolution fails, and then the run ends, or when the directory is not
    found, and then the next round begins. *)
Inductive rounds : list event -> Prop :=
| rounds_done : rounds []
| rounds_apply_failed name ops : rounds [EvApply name ops]
| rounds_no_stats name ops t :
    rounds t -> rounds (EvApply name ops :: EvPath name :: t)
| rounds_stats name ops ops' t :
    rounds t -> rounds (EvApply name ops :: EvPath name :: EvGetStats name ops' :: t).

(** The apply steps of the controllers of a list, one after the other and
    each succeeding: the step of a controller starts on the filesystem
    that the step before it left, and nothing is taken back in between. *)
Inductive applied_in_turn (d : data)
  : list (string * subsystem) -> fsys -> fsys -> list event -> Prop :=
| applied_none fs : applied_in_turn d [] fs fs []
| applied_next name sys rest fs fs1 fs2 ops t :
    Apply sys d fs = (Ok tt, fs1, ops) ->
    applied_in_turn d rest fs1 fs2 t ->
    applied_in_turn d ((name, sys) :: rest) fs fs2 (EvApply name ops :: t).

(** The rounds of a statistics call that goes through: each controller is
    applied on the filesystem the round before left, its directory is
    resolved on the filesystem the apply step left, and it is either
    skipped as not found or its statistics are read. *)
Inductive stats_in_turn (E : env) (d : data)
  : list (string * subsystem) -> Stats -> fsys -> Stats -> fsys -> list event -> Prop :=
| stats_none stats fs : stats_in_turn E d [] stats fs stats fs []
| stats_skipped name sys rest stats fs fs1 ops err stats' fs' t :
    Apply sys d fs = (Ok tt, fs1, ops) ->
    data_path E d name fs1 = Err err ->
    cgroups.IsNotFound err = true ->
    stats_in_turn E d rest stats fs1 stats' fs' t ->
    stats_in_turn E d ((name, sys) :: rest) stats fs stats' fs'
      (EvApply name ops :: EvPath name :: t)
| stats_read name sys rest stats fs fs1 ops p stats1 fs2 ops' stats' fs' t :
    Apply sys d fs = (Ok tt, fs1, ops) ->
    data_path E d name fs1 = Ok p ->
    GetStats sys p stats fs1 = (Ok stats1, fs2, ops') ->
    stats_in_turn E d rest stats1 fs2 stats' fs' t ->
    stats_in_turn E d ((name, sys) :: rest) stats fs stats' fs'
      (EvApply name ops :: EvPath name :: EvGetStats name ops' :: t).

(** ** The daemon's [ContainerLimit] job *)

Inductive job_error :=
| JobUsage (name : string)
| JobError (e : error)
| JobStopped
| JobChangeFailed (id : string) (e : error)
| JobSaveFailed (id : string) (e : error).

Inductive Status :=
| StatusOK
| StatusErr (e : job_error).

(** The fields of the stored configuration that the job writes back. *)
Definition write_back (cg : Cgroup) (cfg : Config) : Config :=
  let cfg1 :=
    if decide (Memory cg <> 0%Z)
    then {| Config_Memory := Memory cg; Config_CpuShares := Config_CpuShares cfg;
            Config_Cpuset := Config_Cpuset cfg |}
    else cfg in
  let cfg2 :=
    if decide (CpuShares cg <> 0%Z)
    then {| Config_Memory := Config_Memory cfg1; Config_CpuShares := CpuShares cg;
            Config_Cpuset := Config_Cpuset cfg1 |}
    else cfg1 in
  if decide (CpusetCpus cg <> "")
  then {| Config_Memory := Config_Memory cfg2; Config_CpuShares := Config_CpuShares cfg2;
          Config_Cpuset := CpusetCpus cg |}
  else cfg2.

(** The daemon holds its containers by name; the job changes the
    configuration of the one it names in place.  The result is the job's
    status, the containers afterwards, the filesystem and the calls. *)
Definition ContainerLimit (E : env) (order : list (string * subsystem))
    (containers : gmap string Container) (job : Job) (fs : fsys)
  : Status * gmap string Container * fsys * list event :=
  match Args job with
  | [name] =>
      match containers !! name with
      | None => (StatusErr (JobError (OtherError "no such container")), containers, fs, [])
      | Some container =>
          if negb (IsRunning container)
          then (StatusErr JobStopped, containers, fs, [])
          else
            let memory := GetenvInt64 job "memory" in
            let cpuShares := GetenvInt64 job "cpuShares" in
            let cpuset := Getenv job "cpuset" in
            let saveChanges := GetenvBool job "saveChanges" in
            let cg := {| Name := ID container;
                         Parent := ExecutionDriver_Parent E;
                         Memory := memory;
                         CpuShares := cpuShares;
                         CpusetCpus := cpuset |} in
            match SetResources E order cg (Pid container) fs with
            | (Err err, fs1, t1) =>
                (StatusErr (JobChangeFailed (ID container) err), containers, fs1, t1)
            | (Ok _, fs1, t1) =>
                if saveChanges then
                  let container' :=
                    {| ID := ID container; Pid := Pid container;
                       IsRunning := IsRunning container;
                       Config_of := write_back cg (Config_of container) |} in
                  let containers' := <[ name := container' ]> containers in
                  match ToDisk E container' with
                  | Some err =>
                      (StatusErr (JobSaveFailed (ID container) err), containers', fs1, t1)
                  | None => (StatusOK, containers', fs1, t1)
                  end
                else (StatusOK, containers, fs1, t1)
            end
      end
  | _ => (StatusErr (JobUsage (Job_Name job)), containers, fs, [])
  end.

Definition job_status (r : Status * gmap string Container * fsys * list event) : Status :=
  r.1.1.1.

Definition job_containers (r : Status * gmap string Container * fsys * list event)
  : gmap string Container := r.1.1.2.

(** The claim as the specification states it: two runs over the same
    registry invoke the apply steps in the same order. *)
Definition order_is_stable (E : env) : Prop :=
  forall order1 order2 cg pid fs,
    range_order (supportedSubsystems E) order1 ->
    range_order (supportedSubsystems E) order2 ->
    applied (trace (SetResources E order1 cg pid fs))
    = applied (trace (SetResources E order2 cg pid fs)).

(** The claim of the specification on the direct helpers, as it is
    stated: a file name outside the allow-list always fails with
    [ErrCanNotAccess]. *)
Definition unlisted_is_ErrCanNotAccess (E : env) : Prop :=
  forall order id driver subsystem value fs,
    range_order AccessaibleSubsystems order ->
    ~ accessible subsystem ->
    outcome (fs_Get E order id driver subsystem fs) = Err ErrCanNotAccess /\
    outcome (fs_Set E order id driver subsystem value fs) = Err ErrCanNotAccess.

(** ** A concrete environment

    One mounted hierarchy under [/sys/fs/cgroup], used to run the
    definitions on concrete inputs. *)

Definition nl (s : string) : string := s +:+ String newline "".

Definition demo_files : list (string * string) :=
  [ ("cpuset.cpus", nl ""); ("cpuset.mems", nl ""); ("cgroup.procs", "") ].

Definition sys_fs_cgroup : path := ["cgroup"; "fs"; "sys"].

(** Modelled from the spec: [data.path] is declared outside the given
    sources; the resolver joins the hierarchy root, the controller name,
    the parent path of the workload and its name, and reports a controller
    that is not mounted as not found. *)
Definition demo_path (d : data) (subsystem : string) (fs : fsys) : result path :=
  if bool_decide (subsystem ∈ ["memory"; "cpu"; "cpuset"])
  then Ok (filepath.JoinAll sys_fs_cgroup [subsystem; Parent (c d); Name (c d)])
  else Err (NotFoundError subsystem).

(** Modelled from the spec: the CPU and memory controllers are declared
    outside the given sources; each creates its directory, joins the
    process and writes its own field of the specification when that field
    is not zero. *)
Definition demo_apply (subsystem file : string) (field : Cgroup -> Z) (d : data)
  : M op unit :=
  dir <- (fun fs => (demo_path d subsystem fs, fs, [OpResolve subsystem])) ;;
  os.MkdirAll demo_files dir ;;;
  writeFile dir "cgroup.procs" (strconv.Itoa (pid d)) ;;;
  if decide (field (c d) <> 0%Z)
  then writeFile dir file (strconv.Itoa (field (c d)))
  else ret tt.

Definition demo_stats (file : string) (p : path) (stats : Stats) : M op Stats :=
  v <- ioutil.ReadFile (filepath.Join p file) ;;
  ret (stats ++ [(file, strings_.TrimSuffix v newline)]).

Definition demo_memory : subsystem :=
  {| Apply := demo_apply "memory" "memory.limit_in_bytes" Memory;
     GetStats := demo_stats "memory.limit_in_bytes" |}.

Definition demo_cpu : subsystem :=
  {| Apply := demo_apply "cpu" "cpu.shares" CpuShares;
     GetStats := demo_stats "cpu.shares" |}.

(** A controller that is registered but not mounted. *)
Definition demo_blkio : subsystem :=
  {| Apply := fun _ => ret tt; GetStats := fun _ stats => ret stats |}.

(** The environment without a registry for the statistics. *)
Definition demo_base : env :=
  {| kernel_files := demo_files;
     FindCgroupMountpoint := fun _ => Ok ("cpu" :: sys_fs_cgroup);
     GetInitCgroupDir := fun _ => Ok "/";
     getCgroupData := fun cg pid => Ok {| c := cg; pid := pid |};
     data_path := demo_path;
     MemoryGroup := demo_memory;
     CpuGroup := demo_cpu;
     subsystems := [];
     ExecutionDriver_Parent := "docker";
     ToDisk := fun _ => None |}.

Definition demo_env : env :=
  {| kernel_files := kernel_files demo_base;
     FindCgroupMountpoint := FindCgroupMountpoint demo_base;
     GetInitCgroupDir := GetInitCgroupDir demo_base;
     getCgroupData := getCgroupData demo_base;
     data_path := data_path demo_base;
     MemoryGroup := MemoryGroup demo_base;
     CpuGroup := CpuGroup demo_base;
     subsystems :=
       [ ("blkio", demo_blkio); ("memory", demo_memory);
         ("cpu", demo_cpu); ("cpuset", CpusetGroup demo_base) ];
     ExecutionDriver_Parent := ExecutionDriver_Parent demo_base;
     ToDisk := ToDisk demo_base |}.

(** The mounted hierarchy: the controllers' root directories, and the
    masks of the cpuset root. *)
Definition demo_fs : fsys :=
  <[ "cpuset.mems" :: "cpuset" :: sys_fs_cgroup := File (nl "0") ]>
  (<[ "cpuset.cpus" :: "cpuset" :: sys_fs_cgroup := File (nl "0-3") ]>
  (<[ "cpuset" :: sys_fs_cgroup := Directory ]>
  (<[ "memory" :: sys_fs_cgroup := Directory ]>
  (<[ "cpu" :: sys_fs_cgroup := Directory ]>
  (<[ sys_fs_cgroup := Directory ]>
  (<[ ["fs"; "sys"] := Directory ]>
  (<[ ["sys"] := Directory ]> ∅))))))).

(** The same hierarchy with a cpuset root that has no mask files. *)
Definition demo_fs_nomask : fsys :=
  delete ("cpuset.mems" :: "cpuset" :: sys_fs_cgroup)
    (delete ("cpuset.cpus" :: "cpuset" :: sys_fs_cgroup) demo_fs).

Definition demo_cgroup (memory cpuShares : Z) (cpuset : string) : Cgroup :=
  {| Name := "c1"; Parent := "docker"; Memory := memory;
     CpuShares := cpuShares; CpusetCpus := cpuset |}.

Definition demo_job (memory cpuShares : Z) (cpuset : string) (save : bool) : Job :=
  {| Job_Name := "container_limit";
     Args := ["web"];
     Getenv := fun _ => cpuset;
     GetenvInt64 := fun key => if String.eqb key "memory" then memory else cpuShares;
     GetenvBool := fun _ => save |}.

Definition demo_containers : gmap string Container :=
  {[ "web" := {| ID := "c1"; Pid := 4217%Z; IsRunning := true;
                 Config_of := {| Config_Memory := 1024; Config_CpuShares := 512;
                                 Config_Cpuset := "0-3" |} |} ]}.

(** The directories that [ensureParent] has to create for the new part
    [t] of a target below [r], from the one next to [r] down to the
    target. *)
Fixpoint new_dirs (t r : path) : list path :=
  match t with
  | comp :: t' => new_dirs t' r ++ [comp :: t' ++ r]
  | [] => []
  end.

(** The directories a run created, in the order of creation. *)
Definition mkdirs (t : list op) : list path :=
  omap (fun o => match o with OpMkdir p => Some p | _ => None end) t.

(** Both mask files of the directory exist and are not empty. *)
Definition masks_set (fs : fsys) (d : path) : Prop :=
  exists cpus mems,
    fs !! ("cpuset.cpus" :: d) = Some (File cpus) /\ isEmpty cpus = false /\
    fs !! ("cpuset.mems" :: d) = Some (File mems) /\ isEmpty mems = false.

Definition is_write (o : op) : bool :=
  match o with OpWrite _ _ => true | _ => false end.

Definition is_access (o : op) : bool :=
  match o with OpRead _ | OpWrite _ _ => true | _ => false end.

(** What reading the file gives. *)
Definition read (fs : fsys) (p : path) : result string :=
  outcome (ioutil.ReadFile p fs).

(** The reads of [copyIfNeeded], in their order. *)
Definition mask_reads (current parent : path) : list op :=
  [ OpRead ("cpuset.cpus" :: current); OpRead ("cpuset.mems" :: current);
    OpRead ("cpuset.cpus" :: parent); OpRead ("cpuset.mems" :: parent) ].

(** The copy of one mask: the parent's value goes into the file of the
    current directory when the current value is empty. *)
Definition copy_mask (file : string) (current : path) (cur par : string) (fs : fsys) : fsys :=
  if isEmpty cur then <[ file :: current := File par ]> fs else fs.

Definition copy_write (file : string) (current : path) (cur par : string) : list op :=
  if isEmpty cur then [OpWrite (file :: current) par] else [].

(** The writes of a run go to files of these names only. *)
Definition writes_only (names : list string) (t : list op) : Prop :=
  forall p v, OpWrite p v ∈ t -> exists file d, p = file :: d /\ file ∈ names.

(** The second half of [ensureParent]: the directory is made and its
    masks are copied from the parent. *)
Definition make_and_copy (E : env) (current : path) : M op unit :=
  mk <- attempt (os.MkdirAll (kernel_files E) current) ;;
  match mk with
  | Err err => if negb (os.IsExist err) then fail err else ret tt
  | Ok _ => ret tt
  end ;;;
  copyIfNeeded current (filepath.Dir current).

(** The paths that the creation of the directories [ds] changes: the
    directories and the files the kernel puts into them. *)
Definition touched (files : list (string * string)) (ds : list path) (q : path) : Prop :=
  exists d, d ∈ ds /\ (q = d \/ exists f, f ∈ files.*1 /\ q = f :: d).

(** The path that [getPath] builds from the mount point of the cpu
    controller, the group, the init directory of the group and the three
    names. *)
Definition control_file (m : path) (group initPath driver id subsystem : string)
  : path :=
  filepath.JoinAll (filepath.Dir m) [group; initPath; driver; id; subsystem].

(** The accesses that only look: the lookups outside the hierarchy and
    the [Stat] calls. *)
Definition is_lookup (o : op) : bool :=
  match o with
  | OpStat _ | OpMountpoint _ | OpInitCgroupDir _ => true
  | _ => false
  end.

(** An environment in which the mount table cannot be read. *)
Definition demo_env_no_mounts : env :=
  {| kernel_files := kernel_files demo_base;
     FindCgroupMountpoint := fun _ => Err (NotFoundError "cpu");
     GetInitCgroupDir := GetInitCgroupDir demo_base;
     getCgroupData := getCgroupData demo_base;
     data_path := data_path demo_base;
     MemoryGroup := MemoryGroup demo_base;
     CpuGroup := CpuGroup demo_base;
     subsystems := [];
     ExecutionDriver_Parent := ExecutionDriver_Parent demo_base;
     ToDisk := ToDisk demo_base |}.

(** An environment whose resolver fails for every controller. *)
Definition demo_env_unresolved : env :=
  {| kernel_files := kernel_files demo_base;
     FindCgroupMountpoint := FindCgroupMountpoint demo_base;
     GetInitCgroupDir := GetInitCgroupDir demo_base;
     getCgroupData := getCgroupData demo_base;
     data_path := fun _ _ _ => Err (OtherError "no cpuset mount");
     MemoryGroup := MemoryGroup demo_base;
     CpuGroup := CpuGroup demo_base;
     subsystems := [];
     ExecutionDriver_Parent := ExecutionDriver_Parent demo_base;
     ToDisk := ToDisk demo_base |}.

(** The files of a workload in the hierarchy of a controller. *)
Definition workload (subsystem : string) : path :=
  ["c1"; "docker"; subsystem; "cgroup"; "fs"; "sys"].

(** The content with which the kernel creates the file [f] in a new
    directory, when it creates one of that name. *)
Fixpoint fresh (files : list (string * string)) (f : string) : option string :=
  match files with
  | (f', v) :: rest => if decide (f' = f) then Some v else fresh rest f
  | [] => None
  end.

(** The specification that [ContainerLimit] builds from the job for a
    container, and the container with the fields written back. *)
Definition limit_request (E : env) (job : Job) (container : Container) : Cgroup :=
  {| Name := ID container;
     Parent := ExecutionDriver_Parent E;
     Memory := GetenvInt64 job "memory";
     CpuShares := GetenvInt64 job "cpuShares";
     CpusetCpus := Getenv job "cpuset" |}.

Definition written_back (cg : Cgroup) (container : Container) : Container :=
  {| ID := ID container; Pid := Pid container; IsRunning := IsRunning container;
     Config_of := write_back cg (Config_of container) |}.

Definition job_fs (r : Status * gmap string Container * fsys * list event) : fsys :=
  r.1.2.

Definition job_events (r : Status * gmap string Container * fsys * list event)
  : list event := r.2.

(** The concrete environment with a disk that cannot be written. *)
Definition demo_env_disk_full : env :=
  {| kernel_files := kernel_files demo_base;
     FindCgroupMountpoint := FindCgroupMountpoint demo_base;
     GetInitCgroupDir := GetInitCgroupDir demo_base;
     getCgroupData := getCgroupData demo_base;
     data_path := data_path demo_base;
     MemoryGroup := MemoryGroup demo_base;
     CpuGroup := CpuGroup demo_base;
     subsystems := [];
     ExecutionDriver_Parent := ExecutionDriver_Parent demo_base;
     ToDisk := fun _ => Some (OtherError "no space left on device") |}.

(** ** First runs *)

Example stat_demo :
  stat demo_fs ("c1" :: "docker" :: "cpuset" :: sys_fs_cgroup)
  = Err (PathError "stat" ("c1" :: "docker" :: "cpuset" :: sys_fs_cgroup) ENOENT).
Proof. vm_compute. reflexivity. Qed.

(** The join is cleaned: slashes inside an element separate components,
    [.] and empty components vanish, [..] steps to the parent and stops at
    the root. *)
Example join_demo :
  filepath.JoinAll sys_fs_cgroup ["cpu"; "/"; "docker"; ".."; "a//b/."]
  = ["b"; "a"; "cpu"; "cgroup"; "fs"; "sys"] /\
  filepath.Join ["sys"] "../../x" = ["x"] /\
  filepath.Join sys_fs_cgroup "" = sys_fs_cgroup.
Proof. repeat split; vm_compute; reflexivity. Qed.

Example itoa_demo : strconv.Itoa 4217 = "4217" /\ strconv.Itoa (-3) = "-3".
Proof. vm_compute. split; reflexivity. Qed.

Example trim_demo : bytes.Trim (nl (nl (String newline "0-3"))) newline = "0-3".
Proof. vm_compute. reflexivity. Qed.

(** The scenario of the specification: a workload pinned to ["0-1"] below
    a root with the masks ["0-3"] and ["0"]. *)
Example cpuset_scenario :
  let dir := "c1" :: "docker" :: "cpuset" :: sys_fs_cgroup in
  let r := CpusetGroup_Set demo_env {| c := demo_cgroup 0 0 "0-1"; pid := 4217 |} demo_fs in
  outcome r = Ok tt /\
  final r !! ("cpuset.cpus" :: dir) = Some (File "0-1") /\
  final r !! ("cpuset.mems" :: dir) = Some (File (nl "0")) /\
  final r !! ("cgroup.procs" :: dir) = Some (File "4217") /\
  mkdirs (trace r) = [ "docker" :: "cpuset" :: sys_fs_cgroup; dir ].
Proof. vm_compute. repeat split; reflexivity. Qed.

(** ** Sequencing *)

Lemma bind_ok {E A B} (m : M E A) (k : A -> M E B) fs a fs1 t1 :
  m fs = (Ok a, fs1, t1) ->
  bind m k fs = (let '(r, fs2, t2) := k a fs1 in (r, fs2, t1 ++ t2)).
Proof. intros H. unfold bind. rewrite H. reflexivity. Qed.

Lemma bind_err {E A B} (m : M E A) (k : A -> M E B) fs e fs1 t1 :
  m fs = (Err e, fs1, t1) -> bind m k fs = (Err e, fs1, t1).
Proof. intros H. unfold bind. rewrite H. reflexivity. Qed.

(** A run is determined by its outcome, its final filesystem and its
    trace. *)
Lemma run_eta {E A} (r : result A * fsys * list E) (o : result A) :
  outcome r = o -> r = (o, final r, trace r).
Proof. destruct r as [[o' fs] t]. unfold outcome. simpl. intros ->. reflexivity. Qed.

(** ** SetResources *)

Lemma apply_each_app d l1 l2 fs :
  apply_each d (l1 ++ l2) fs = bind (apply_each d l1) (fun _ => apply_each d l2) fs.
Proof.
  revert fs. induction l1 as [|[name sys] l1 IH]; intros fs; simpl.
  - unfold bind, ret. simpl. destruct (apply_each d l2 fs) as [[r fs2] t2]. reflexivity.
  - unfold bind, call in *.
    destruct (Apply sys d fs) as [[[[]|e] fs1] t1]; [|reflexivity].
    rewrite IH.
    destruct (apply_each d l1 fs1) as [[[[]|e1] fs2] t2]; [|reflexivity].
    destruct (apply_each d l2 fs2) as [[r fs3] t3]. simpl. reflexivity.
Qed.

Lemma applied_each d order fs :
  applied (trace (apply_each d order fs)) `prefix_of` order.*1 /\
  (is_ok (outcome (apply_each d order fs)) = true ->
   applied (trace (apply_each d order fs)) = order.*1).
Proof.
  revert fs. induction order as [|[name sys] order IH]; intros fs; simpl.
  - split; [apply prefix_nil | reflexivity].
  - unfold bind, call. destruct (Apply sys d fs) as [[[[]|e] fs1] t1].
    + destruct (IH fs1) as [IH1 IH2].
      destruct (apply_each d order fs1) as [[r fs2] t2]. simpl in *.
      split; [by apply prefix_cons | intros H; by rewrite IH2].
    + simpl. split; [apply prefix_cons, prefix_nil | discriminate].
Qed.

Lemma applied_app t1 t2 : applied (t1 ++ t2) = applied t1 ++ applied t2.
Proof. apply omap_app. Qed.

Lemma applied_in_turn_run d order fs fs1 t :
  applied_in_turn d order fs fs1 t -> apply_each d order fs = (Ok tt, fs1, t).
Proof.
  induction 1 as [fs|name sys rest fs fs1 fs2 ops t Hsys _ IH]; simpl; [reflexivity|].
  unfold bind, call. rewrite Hsys, IH. reflexivity.
Qed.

Lemma applied_in_turn_names d order fs fs1 t :
  applied_in_turn d order fs fs1 t -> applied t = order.*1.
Proof. induction 1; simpl; [reflexivity | by f_equal]. Qed.

Lemma SetResources_in_turn E order cg pid fs d fs1 t :
  getCgroupData E cg pid = Ok d ->
  applied_in_turn d order fs fs1 t ->
  SetResources E order cg pid fs = (Ok d, fs1, t).
Proof.
  intros Hd Hturn. apply applied_in_turn_run in Hturn.
  unfold SetResources, bind, lift, ret. rewrite Hd, Hturn. simpl.
  rewrite app_nil_r. reflexivity.
Qed.

Lemma SetResources_failing
    E (before after : list (string * subsystem)) name sys cg pid fs d fs1 t1 e fs2 ops :
  getCgroupData E cg pid = Ok d ->
  applied_in_turn d before fs fs1 t1 ->
  Apply sys d fs1 = (Err e, fs2, ops) ->
  SetResources E (before ++ (name, sys) :: after) cg pid fs
  = (Err e, fs2, t1 ++ [EvApply name ops]).
Proof.
  intros Hd Hpre Hsys. apply applied_in_turn_run in Hpre.
  unfold SetResources. unfold bind at 1. unfold lift. rewrite Hd.
  rewrite (bind_err (apply_each d (before ++ (name, sys) :: after)) _ fs e fs2
             (t1 ++ [EvApply name ops])); [reflexivity|].
  rewrite apply_each_app. rewrite (bind_ok _ _ _ _ _ _ Hpre). simpl.
  unfold bind, call. rewrite Hsys. reflexivity.
Qed.

(** C1. When the controllers [before] have been applied one after the
    other, each with success, and the apply step of the next controller
    fails, [SetResources] returns that error at once: the apply steps it
    invoked are those of [before] and the failing one, none of the
    controllers after it, and the filesystem is the one the failing step
    left, reached from the filesystem that the earlier steps had built.
    Nothing of what they wrote is taken back: over [before] alone the call
    succeeds with that same filesystem. *)
Theorem SetResources_stops_at_first_error
    E (before after : list (string * subsystem)) name sys cg pid fs d fs1 t1 e fs2 ops :
  getCgroupData E cg pid = Ok d ->
  applied_in_turn d before fs fs1 t1 ->
  Apply sys d fs1 = (Err e, fs2, ops) ->
  let r := SetResources E (before ++ (name, sys) :: after) cg pid fs in
  r = (Err e, fs2, t1 ++ [EvApply name ops]) /\
  applied (trace r) = before.*1 ++ [name] /\
  SetResources E before cg pid fs = (Ok d, fs1, t1).
Proof.
  intros Hd Hpre Hsys r. subst r.
  rewrite (SetResources_failing E before after name sys cg pid fs d fs1 t1 e fs2 ops
             Hd Hpre Hsys).
  split; [reflexivity|]. split.
  - unfold trace. simpl. rewrite applied_app.
    by rewrite (applied_in_turn_names _ _ _ _ _ Hpre).
  - by apply SetResources_in_turn.
Qed.

(** On a cpuset root without mask files the memory controller is applied,
    the cpuset controller fails, and the cpu controller is not reached:
    the limit that the memory controller wrote is in the filesystem the
    call leaves, and the cpu directory of the workload was not made. *)
Lemma SetResources_stops_at_first_error_witness :
  let d := {| c := demo_cgroup 1048576 0 "0-1"; pid := 4217%Z |} in
  let r := SetResources demo_env
             ([("memory", demo_memory)]
              ++ ("cpuset", CpusetGroup demo_env) :: [("cpu", demo_cpu)])
             (c d) (pid d) demo_fs_nomask in
  outcome r = Err (PathError "open" ("cpuset.cpus" :: "cpuset" :: sys_fs_cgroup) ENOENT) /\
  applied (trace r) = ["memory"; "cpuset"] /\
  demo_fs_nomask !! ("memory.limit_in_bytes" :: workload "memory") = None /\
  final r !! ("memory.limit_in_bytes" :: workload "memory") = Some (File "1048576") /\
  final r !! workload "cpu" = None.
Proof.
  intros d r.
  pose (r1 := Apply demo_memory d demo_fs_nomask).
  pose (r2 := Apply (CpusetGroup demo_env) d (final r1)).
  assert (H1 : outcome r1 = Ok tt) by (vm_compute; reflexivity).
  assert (H2 : outcome r2
               = Err (PathError "open" ("cpuset.cpus" :: "cpuset" :: sys_fs_cgroup) ENOENT))
    by (vm_compute; reflexivity).
  destruct (SetResources_stops_at_first_error demo_env [("memory", demo_memory)]
              [("cpu", demo_cpu)] "cpuset" (CpusetGroup demo_env) (c d) (pid d)
              demo_fs_nomask d (final r1) [EvApply "memory" (trace r1)] _
              (final r2) (trace r2) eq_refl
              (applied_next d "memory" demo_memory [] _ _ _ _ _
                 (run_eta r1 _ H1) (applied_none d _))
              (run_eta r2 _ H2)) as (Hr & Happ & _).
  fold r in Hr, Happ.
  split; [by rewrite Hr|]. split; [exact Happ|].
  split; [vm_compute; reflexivity|].
  rewrite Hr. unfold final at 1 3. cbn [fst snd].
  split; vm_compute; reflexivity.
Defined.

(** ** The order of the controllers *)

Lemma SetResources_applied E order cg pid fs :
  applied (trace (SetResources E order cg pid fs)) `prefix_of` order.*1 /\
  (is_ok (outcome (SetResources E order cg pid fs)) = true ->
   applied (trace (SetResources E order cg pid fs)) = order.*1).
Proof.
  unfold SetResources, bind, lift, ret.
  destruct (getCgroupData E cg pid) as [d|e]; simpl.
  - destruct (applied_each d order fs) as [H1 H2].
    destruct (apply_each d order fs) as [[[[]|e] fs1] t1]; simpl in *.
    + rewrite !app_nil_r. auto.
    + auto.
  - split; [apply prefix_nil | discriminate].
Qed.

(** C2, as amended. A run of [SetResources] invokes the apply steps in
    the order in which the [range] over the registry yields its entries,
    whatever that order is.  When every step succeeds these are the three
    registered controllers, each once, in that order, and the call
    succeeds.  When a step fails, these are the controllers of the order
    up to and including the failing one, and the call fails with its
    error.  When the data of the workload cannot be set up, no step is
    invoked. *)
Theorem SetResources_follows_range_order E order cg pid fs :
  range_order (supportedSubsystems E) order ->
  let r := SetResources E order cg pid fs in
  applied (trace r) `prefix_of` order.*1 /\
  (forall d fs1 t1,
     getCgroupData E cg pid = Ok d ->
     applied_in_turn d order fs fs1 t1 ->
     r = (Ok d, fs1, t1) /\
     applied (trace r) = order.*1 /\
     applied (trace r) ≡ₚ ["memory"; "cpu"; "cpuset"]) /\
  (forall before name sys after d fs1 t1 e fs2 ops,
     order = before ++ (name, sys) :: after ->
     getCgroupData E cg pid = Ok d ->
     applied_in_turn d before fs fs1 t1 ->
     Apply sys d fs1 = (Err e, fs2, ops) ->
     outcome r = Err e /\
     applied (trace r) = before.*1 ++ [name]) /\
  (forall e, getCgroupData E cg pid = Err e ->
     outcome r = Err e /\ applied (trace r) = []).
Proof.
  intros Hperm r. subst r. split; [|split; [|split]].
  - apply SetResources_applied.
  - intros d fs1 t1 Hd Hturn.
    rewrite (SetResources_in_turn _ _ _ _ _ _ _ _ Hd Hturn).
    split; [reflexivity|]. unfold trace. simpl.
    rewrite (applied_in_turn_names _ _ _ _ _ Hturn). split; [reflexivity|].
    unfold range_order in Hperm. rewrite Hperm. reflexivity.
  - intros before name sys after d fs1 t1 e fs2 ops -> Hd Hpre Hsys.
    rewrite (SetResources_failing E before after name sys cg pid fs d fs1 t1 e fs2 ops
               Hd Hpre Hsys).
    split; [reflexivity|]. unfold trace. simpl. rewrite applied_app.
    by rewrite (applied_in_turn_names _ _ _ _ _ Hpre).
  - intros e He. unfold SetResources, bind, lift. rewrite He. auto.
Qed.

(** Two runs with the range in the order cpu, cpuset, memory: the first
    goes through and has applied the three controllers in that order; the
    second, on a cpuset root without mask files, fails in the cpuset
    controller and has applied cpu and cpuset. *)
Lemma SetResources_follows_range_order_witness :
  let order := [("cpu", CpuGroup demo_env); ("cpuset", CpusetGroup demo_env);
                ("memory", MemoryGroup demo_env)] in
  let cg := demo_cgroup 1048576 512 "0-1" in
  let r := SetResources demo_env order cg 4217 demo_fs in
  let r' := SetResources demo_env order cg 4217 demo_fs_nomask in
  (outcome r = Ok {| c := cg; pid := 4217%Z |} /\
   applied (trace r) = ["cpu"; "cpuset"; "memory"] /\
   applied (trace r) ≡ₚ ["memory"; "cpu"; "cpuset"]) /\
  (outcome r'
   = Err (PathError "open" ("cpuset.cpus" :: "cpuset" :: sys_fs_cgroup) ENOENT) /\
   applied (trace r') = ["cpu"; "cpuset"]).
Proof.
  intros order cg r r'.
  assert (Hperm : range_order (supportedSubsystems demo_env) order).
  { unfold range_order, order, supportedSubsystems. symmetry.
    exact (Permutation_cons_append
             [("cpu", CpuGroup demo_env); ("cpuset", CpusetGroup demo_env)]
             ("memory", MemoryGroup demo_env)). }
  pose (d := {| c := cg; pid := 4217%Z |}).
  split.
  - pose (r1 := Apply demo_cpu d demo_fs).
    pose (r2 := Apply (CpusetGroup demo_env) d (final r1)).
    pose (r3 := Apply demo_memory d (final r2)).
    assert (H1 : outcome r1 = Ok tt) by (vm_compute; reflexivity).
    assert (H2 : outcome r2 = Ok tt) by (vm_compute; reflexivity).
    assert (H3 : outcome r3 = Ok tt) by (vm_compute; reflexivity).
    destruct (proj1 (proj2 (SetResources_follows_range_order demo_env order cg 4217%Z
                              demo_fs Hperm))
                d (final r3)
                [EvApply "cpu" (trace r1); EvApply "cpuset" (trace r2);
                 EvApply "memory" (trace r3)]
                eq_refl
                (applied_next d "cpu" demo_cpu _ _ _ _ _ _ (run_eta r1 _ H1)
                   (applied_next d "cpuset" (CpusetGroup demo_env) _ _ _ _ _ _
                      (run_eta r2 _ H2)
                      (applied_next d "memory" demo_memory _ _ _ _ _ _ (run_eta r3 _ H3)
                         (applied_none d _)))))
      as (Hr & Happ & Hall).
    fold r in Hr, Happ, Hall. split; [by rewrite Hr|]. split; [exact Happ | exact Hall].
  - pose (r1 := Apply demo_cpu d demo_fs_nomask).
    pose (r2 := Apply (CpusetGroup demo_env) d (final r1)).
    assert (H1 : outcome r1 = Ok tt) by (vm_compute; reflexivity).
    assert (H2 : outcome r2
                 = Err (PathError "open" ("cpuset.cpus" :: "cpuset" :: sys_fs_cgroup) ENOENT))
      by (vm_compute; reflexivity).
    exact (proj1 (proj2 (proj2 (SetResources_follows_range_order demo_env order cg 4217%Z
                                  demo_fs_nomask Hperm)))
             [("cpu", demo_cpu)] "cpuset" (CpusetGroup demo_env)
             [("memory", demo_memory)] d (final r1) [EvApply "cpu" (trace r1)] _
             (final r2) (trace r2) eq_refl eq_refl
             (applied_next d "cpu" demo_cpu [] _ _ _ _ _ (run_eta r1 _ H1)
                (applied_none d _))
             (run_eta r2 _ H2)).
Defined.

(** C2, counterexample. Two runs over the same registry, the second with
    the first two entries of the [range] exchanged, apply memory and cpu in
    different orders. *)
Lemma SetResources_order_not_stable : ~ order_is_stable demo_env.
Proof.
  intros H.
  specialize (H (supportedSubsystems demo_env)
                [("cpu", CpuGroup demo_env); ("memory", MemoryGroup demo_env);
                 ("cpuset", CpusetGroup demo_env)]
                (demo_cgroup 1048576 512 "0-1") 4217%Z demo_fs).
  assert (Hne : applied (trace (SetResources demo_env (supportedSubsystems demo_env)
                  (demo_cgroup 1048576 512 "0-1") 4217 demo_fs))
                = ["memory"; "cpu"; "cpuset"]) by (vm_compute; reflexivity).
  rewrite Hne in H.
  assert (Hne2 : applied (trace (SetResources demo_env
                  [("cpu", CpuGroup demo_env); ("memory", MemoryGroup demo_env);
                   ("cpuset", CpusetGroup demo_env)]
                  (demo_cgroup 1048576 512 "0-1") 4217 demo_fs))
                = ["cpu"; "memory"; "cpuset"]) by (vm_compute; reflexivity).
  rewrite Hne2 in H.
  assert (Heq : ["memory"; "cpu"; "cpuset"] = ["cpu"; "memory"; "cpuset"]).
  { apply H; unfold range_order; [reflexivity | apply Permutation_swap]. }
  discriminate Heq.
Qed.

(** ** The cpuset controller *)

(** C3. With an empty [CpusetCpus] the apply step of the cpuset controller
    succeeds without resolving a path and without any access to the
    filesystem, which it leaves as it was. *)
Theorem CpusetGroup_Set_unset_is_noop E d fs :
  CpusetCpus (c d) = "" ->
  CpusetGroup_Set E d fs = (Ok tt, fs, []).
Proof.
  intros H. unfold CpusetGroup_Set. rewrite H.
  destruct (decide ("" <> "")) as [Hne|_]; [by destruct Hne | reflexivity].
Qed.

Lemma CpusetGroup_Set_unset_is_noop_witness :
  CpusetGroup_Set demo_env {| c := demo_cgroup 0 0 ""; pid := 4217 |} demo_fs
  = (Ok tt, demo_fs, []).
Proof.
  apply (CpusetGroup_Set_unset_is_noop demo_env {| c := demo_cgroup 0 0 ""; pid := 4217 |} demo_fs).
  reflexivity.
Defined.

(** ** GetAllStats *)

Lemma stats_each_app E d l1 l2 stats fs :
  stats_each E d (l1 ++ l2) stats fs
  = bind (stats_each E d l1 stats) (fun stats' => stats_each E d l2 stats') fs.
Proof.
  revert stats fs. induction l1 as [|[name sys] l1 IH]; intros stats fs; simpl.
  - unfold bind, ret. destruct (stats_each E d l2 stats fs) as [[r fs2] t2]. reflexivity.
  - unfold bind, call, attempt, fail in *.
    destruct (Apply sys d fs) as [[[[]|e] fs1] t1]; [|reflexivity].
    destruct (data_path E d name fs1) as [p|err].
    + destruct (GetStats sys p stats fs1) as [[[stats'|e] fs2] t2]; [|reflexivity].
      rewrite IH.
      destruct (stats_each E d l1 stats' fs2) as [[[stats''|e] fs3] t3]; [|reflexivity].
      destruct (stats_each E d l2 stats'' fs3) as [[r fs4] t4]. simpl.
      rewrite <- ?app_assoc. reflexivity.
    + destruct (cgroups.IsNotFound err); [|reflexivity].
      rewrite IH.
      destruct (stats_each E d l1 stats fs1) as [[[stats''|e] fs3] t3]; [|reflexivity].
      destruct (stats_each E d l2 stats'' fs3) as [[r fs4] t4]. simpl.
      rewrite <- ?app_assoc. reflexivity.
Qed.

Lemma GetAllStats_inv E order cg pid fs d stats fs1 t1 :
  getCgroupData E cg pid = Ok d ->
  GetAllStats E order cg pid fs = (Ok stats, fs1, t1) ->
  stats_each E d order [] fs = (Ok stats, fs1, t1).
Proof.
  intros Hd. unfold GetAllStats, bind, lift. rewrite Hd.
  destruct (stats_each E d order [] fs) as [[r fs2] t2]. simpl. congruence.
Qed.

Lemma GetAllStats_after E before rest cg pid fs d stats1 fs1 t1 :
  getCgroupData E cg pid = Ok d ->
  GetAllStats E before cg pid fs = (Ok stats1, fs1, t1) ->
  GetAllStats E (before ++ rest) cg pid fs
  = (let '(o, fs2, t2) := stats_each E d rest stats1 fs1 in (o, fs2, t1 ++ t2)).
Proof.
  intros Hd Hpre. apply (GetAllStats_inv _ _ _ _ _ _ _ _ _ Hd) in Hpre.
  unfold GetAllStats. unfold bind at 1. unfold lift. rewrite Hd.
  rewrite stats_each_app. rewrite (bind_ok _ _ _ _ _ _ Hpre).
  destruct (stats_each E d rest stats1 fs1) as [[o fs2] t2]. reflexivity.
Qed.

(** C7. In the loop of [GetAllStats], after the controllers before it went
    through and its own apply step succeeded: a resolution of the
    controller's directory that fails as not found skips the controller,
    the loop goes on with the controllers after it and the statistics
    unchanged; any other resolution error, and any error of reading the
    statistics, is the result of the whole call. *)
Theorem GetAllStats_skips_not_found_only
    E (before after : list (string * subsystem)) name sys cg pid fs d stats1 fs1 t1 fs2 ops :
  getCgroupData E cg pid = Ok d ->
  GetAllStats E before cg pid fs = (Ok stats1, fs1, t1) ->
  Apply sys d fs1 = (Ok tt, fs2, ops) ->
  let r := GetAllStats E (before ++ (name, sys) :: after) cg pid fs in
  let head := t1 ++ [EvApply name ops; EvPath name] in
  (forall err, data_path E d name fs2 = Err err -> cgroups.IsNotFound err = true ->
     r = (let '(o, fs3, t3) := stats_each E d after stats1 fs2 in (o, fs3, head ++ t3))) /\
  (forall err, data_path E d name fs2 = Err err -> cgroups.IsNotFound err = false ->
     r = (Err err, fs2, head)) /\
  (forall p err fs3 ops', data_path E d name fs2 = Ok p ->
     GetStats sys p stats1 fs2 = (Err err, fs3, ops') ->
     r = (Err err, fs3, head ++ [EvGetStats name ops'])).
Proof.
  intros Hd Hpre Hsys r head. subst r head.
  rewrite (GetAllStats_after _ _ _ _ _ _ _ _ _ _ Hd Hpre). simpl.
  unfold bind, call, attempt, fail. rewrite Hsys.
  split; [|split].
  - intros err Hp Hnf. rewrite Hp, Hnf.
    destruct (stats_each E d after stats1 fs2) as [[o fs3] t3]. simpl.
    rewrite <- ?app_assoc. reflexivity.
  - intros err Hp Hnf. rewrite Hp, Hnf. simpl. reflexivity.
  - intros p err fs3 ops' Hp Hst. rewrite Hp, Hst. simpl.
    rewrite <- ?app_assoc. reflexivity.
Qed.

(** The blkio controller is registered but not mounted: the call goes on
    to the cpu controller and succeeds. *)
Lemma GetAllStats_skips_not_found_only_witness :
  let cg := demo_cgroup 1048576 512 "" in
  let d := {| c := cg; pid := 4217%Z |} in
  let r1 := GetAllStats demo_env [("memory", demo_memory)] cg 4217 demo_fs in
  let r := GetAllStats demo_env
             ([("memory", demo_memory)] ++ ("blkio", demo_blkio) :: [("cpu", demo_cpu)])
             cg 4217 demo_fs in
  r = (let '(o, fs3, t3) :=
         stats_each demo_env d [("cpu", demo_cpu)] [("memory.limit_in_bytes", "1048576")]
           (final r1) in
       (o, fs3, (trace r1 ++ [EvApply "blkio" []; EvPath "blkio"]) ++ t3)) /\
  outcome r = Ok [("memory.limit_in_bytes", "1048576"); ("cpu.shares", "512")].
Proof.
  intros cg d r1 r. split.
  - assert (H1 : outcome r1 = Ok [("memory.limit_in_bytes", "1048576")])
      by (vm_compute; reflexivity).
    refine (proj1 (GetAllStats_skips_not_found_only demo_env [("memory", demo_memory)]
              [("cpu", demo_cpu)] "blkio" demo_blkio cg 4217%Z demo_fs d _ (final r1) (trace r1)
              (final r1) [] eq_refl (run_eta r1 _ H1) eq_refl)
              (NotFoundError "blkio") eq_refl eq_refl).
  - vm_compute. reflexivity.
Defined.

Lemma stats_each_rounds E d order stats fs :
  rounds (trace (stats_each E d order stats fs)) /\
  (is_ok (outcome (stats_each E d order stats fs)) = true ->
   applied (trace (stats_each E d order stats fs)) = order.*1).
Proof.
  revert stats fs. induction order as [|[name sys] order IH]; intros stats fs; simpl.
  - split; [constructor | reflexivity].
  - unfold bind, call, attempt, fail.
    destruct (Apply sys d fs) as [[[[]|e] fs1] t1]; simpl.
    2: { split; [constructor | discriminate]. }
    destruct (data_path E d name fs1) as [p|err]; simpl.
    + destruct (GetStats sys p stats fs1) as [[[stats'|e] fs2] t2]; simpl.
      * destruct (IH stats' fs2) as [IH1 IH2].
        destruct (stats_each E d order stats' fs2) as [[o fs3] t3]. simpl in *.
        split; [by apply rounds_stats | intros H; by rewrite IH2].
      * split; [apply rounds_stats, rounds_done | discriminate].
    + destruct (cgroups.IsNotFound err); simpl.
      * destruct (IH stats fs1) as [IH1 IH2].
        destruct (stats_each E d order stats fs1) as [[o fs3] t3]. simpl in *.
        split; [by apply rounds_no_stats | intros H; by rewrite IH2].
      * split; [apply rounds_no_stats, rounds_done | discriminate].
Qed.

Lemma stats_in_turn_run E d order stats fs stats' fs' t :
  stats_in_turn E d order stats fs stats' fs' t ->
  stats_each E d order stats fs = (Ok stats', fs', t).
Proof.
  induction 1 as [stats fs
                 |name sys rest stats fs fs1 ops err stats' fs' t Hsys Hp Hnf _ IH
                 |name sys rest stats fs fs1 ops p stats1 fs2 ops' stats' fs' t
                    Hsys Hp Hst _ IH]; simpl; [reflexivity| |].
  - unfold bind, call, attempt, fail. rewrite Hsys, Hp, Hnf, IH. reflexivity.
  - unfold bind, call, attempt, fail. rewrite Hsys, Hp, Hst, IH. reflexivity.
Qed.

Lemma GetAllStats_in_turn E order cg pid fs d stats fs' t :
  getCgroupData E cg pid = Ok d ->
  stats_in_turn E d order [] fs stats fs' t ->
  GetAllStats E order cg pid fs = (Ok stats, fs', t).
Proof.
  intros Hd Hturn. apply stats_in_turn_run in Hturn.
  unfold GetAllStats, bind, lift. rewrite Hd, Hturn. reflexivity.
Qed.

Lemma stats_each_effect E d order :
  (forall name sys, (name, sys) ∈ order ->
     forall p stats fs, final (GetStats sys p stats fs) = fs) ->
  forall stats fs,
    is_ok (outcome (stats_each E d order stats fs)) = true ->
    is_ok (outcome (apply_each d order fs)) = true /\
    final (apply_each d order fs) = final (stats_each E d order stats fs).
Proof.
  induction order as [|[name sys] order IH]; intros Hro stats fs; simpl.
  - auto.
  - assert (Hro' : forall name' sys', (name', sys') ∈ order ->
                     forall p stats fs, final (GetStats sys' p stats fs) = fs).
    { intros name' sys' Hin. apply (Hro name' sys'). by right. }
    assert (Hsys : forall p stats fs, final (GetStats sys p stats fs) = fs).
    { apply (Hro name sys). by left. }
    unfold bind, call, attempt, fail, outcome, final in *.
    destruct (Apply sys d fs) as [[[[]|e] fs1] t1]; cbn [fst snd]; [|discriminate].
    destruct (data_path E d name fs1) as [p|err]; cbn [fst snd].
    + specialize (Hsys p stats fs1).
      destruct (GetStats sys p stats fs1) as [[[stats'|e] fs2] t2]; cbn [fst snd] in *;
        [|discriminate].
      subst fs2. specialize (IH Hro' stats' fs1).
      destruct (stats_each E d order stats' fs1) as [[o fs3] t3].
      destruct (apply_each d order fs1) as [[o' fs3'] t3']. cbn [fst snd] in *. exact IH.
    + destruct (cgroups.IsNotFound err); cbn [fst snd]; [|discriminate].
      specialize (IH Hro' stats fs1).
      destruct (stats_each E d order stats fs1) as [[o fs3] t3].
      destruct (apply_each d order fs1) as [[o' fs3'] t3']. cbn [fst snd] in *. exact IH.
Qed.

Lemma demo_stats_reads_only file p stats fs : final (demo_stats file p stats fs) = fs.
Proof.
  unfold demo_stats, bind, ioutil.ReadFile, ret, final.
  destruct (stat fs (filepath.Join p file)) as [[|v]|e]; reflexivity.
Qed.

(** C8. Every round of [GetAllStats] begins with the controller's apply
    step: the directory is resolved and the statistics are read only after
    it, on the filesystem that the apply step left.  A call that goes
    through has invoked the apply step of every controller of the
    registry, its filesystem is the one that these steps and the readings
    built, and where the readings themselves do not write it is the
    filesystem that [SetResources] over the same controllers leaves: the
    call applies the configuration again.  A failing apply step is the
    result of the whole call. *)
Theorem GetAllStats_applies_first E order cg pid fs :
  let r := GetAllStats E order cg pid fs in
  rounds (trace r) /\
  (is_ok (outcome r) = true -> applied (trace r) = order.*1) /\
  (forall d stats fs' t,
     getCgroupData E cg pid = Ok d ->
     stats_in_turn E d order [] fs stats fs' t ->
     r = (Ok stats, fs', t) /\
     applied (trace r) = order.*1 /\
     ((forall name sys, (name, sys) ∈ order ->
         forall p stats0 fs0, final (GetStats sys p stats0 fs0) = fs0) ->
      outcome (SetResources E order cg pid fs) = Ok d /\
      final (SetResources E order cg pid fs) = fs')) /\
  (forall before name sys after d stats1 fs1 t1 e fs2 ops,
     order = before ++ (name, sys) :: after ->
     getCgroupData E cg pid = Ok d ->
     stats_in_turn E d before [] fs stats1 fs1 t1 ->
     Apply sys d fs1 = (Err e, fs2, ops) ->
     r = (Err e, fs2, t1 ++ [EvApply name ops])).
Proof.
  intros r. subst r. split; [|split; [|split]].
  - unfold GetAllStats, bind, lift.
    destruct (getCgroupData E cg pid) as [d|e]; [|constructor].
    destruct (stats_each_rounds E d order [] fs) as [H _].
    destruct (stats_each E d order [] fs) as [[o fs1] t1]. exact H.
  - unfold GetAllStats, bind, lift.
    destruct (getCgroupData E cg pid) as [d|e]; [|discriminate].
    destruct (stats_each_rounds E d order [] fs) as [_ H].
    destruct (stats_each E d order [] fs) as [[o fs1] t1]. exact H.
  - intros d stats fs' t Hd Hturn. apply stats_in_turn_run in Hturn.
    assert (Hr : GetAllStats E order cg pid fs = (Ok stats, fs', t)).
    { unfold GetAllStats, bind, lift. rewrite Hd, Hturn. reflexivity. }
    rewrite Hr. split; [reflexivity|]. split.
    + destruct (stats_each_rounds E d order [] fs) as [_ H].
      rewrite Hturn in H. apply H. reflexivity.
    + intros Hro.
      destruct (stats_each_effect E d order Hro [] fs) as [H1 H2].
      { rewrite Hturn. reflexivity. }
      rewrite Hturn in H2. unfold SetResources, bind, lift, ret. rewrite Hd.
      unfold outcome, final in *.
      destruct (apply_each d order fs) as [[[[]|e] fs2] t2]; cbn [fst snd] in *;
        [auto | discriminate].
  - intros before name sys after d stats1 fs1 t1 e fs2 ops -> Hd Hpre Hsys.
    apply (GetAllStats_in_turn _ _ _ _ _ _ _ _ _ Hd) in Hpre.
    rewrite (GetAllStats_after _ _ _ _ _ _ _ _ _ _ Hd Hpre). simpl.
    unfold bind, call. rewrite Hsys. reflexivity.
Qed.

(** The statistics of a fresh workload, with blkio registered but not
    mounted: the call goes through, and it has made the directory of the
    workload in the memory hierarchy and put the process into it.  On a
    cpuset root without mask files the apply step of the cpuset controller
    fails, and with it the statistics call. *)
Lemma GetAllStats_applies_first_witness :
  let order := [("memory", demo_memory); ("blkio", demo_blkio); ("cpu", demo_cpu)] in
  let cg := demo_cgroup 1048576 512 "" in
  let r := GetAllStats demo_env order cg 4217 demo_fs in
  let order' := [("memory", demo_memory); ("cpuset", CpusetGroup demo_env);
                 ("cpu", demo_cpu)] in
  let cg' := demo_cgroup 1048576 0 "0-1" in
  let r' := GetAllStats demo_env order' cg' 4217 demo_fs_nomask in
  (outcome r = Ok [("memory.limit_in_bytes", "1048576"); ("cpu.shares", "512")] /\
   applied (trace r) = ["memory"; "blkio"; "cpu"] /\
   final (SetResources demo_env order cg 4217 demo_fs) = final r /\
   demo_fs !! workload "memory" = None /\
   final r !! workload "memory" = Some Directory /\
   final r !! ("cgroup.procs" :: workload "memory") = Some (File "4217")) /\
  (outcome r'
   = Err (PathError "open" ("cpuset.cpus" :: "cpuset" :: sys_fs_cgroup) ENOENT) /\
   applied (trace r') = ["memory"; "cpuset"]).
Proof.
  intros order cg r order' cg' r'. split.
  - pose (d := {| c := cg; pid := 4217%Z |}).
    pose (a1 := Apply demo_memory d demo_fs).
    pose (g1 := GetStats demo_memory (workload "memory") [] (final a1)).
    pose (a3 := Apply demo_cpu d (final g1)).
    pose (g3 := GetStats demo_cpu (workload "cpu")
                  [("memory.limit_in_bytes", "1048576")] (final a3)).
    assert (Ha1 : outcome a1 = Ok tt) by (vm_compute; reflexivity).
    assert (Hg1 : outcome g1 = Ok [("memory.limit_in_bytes", "1048576")])
      by (vm_compute; reflexivity).
    assert (Ha3 : outcome a3 = Ok tt) by (vm_compute; reflexivity).
    assert (Hg3 : outcome g3
                  = Ok [("memory.limit_in_bytes", "1048576"); ("cpu.shares", "512")])
      by (vm_compute; reflexivity).
    assert (Hp1 : data_path demo_env d "memory" (final a1) = Ok (workload "memory"))
      by (lazy; reflexivity).
    assert (Hp2 : data_path demo_env d "blkio" (final g1) = Err (NotFoundError "blkio"))
      by (lazy; reflexivity).
    assert (Hp3 : data_path demo_env d "cpu" (final a3) = Ok (workload "cpu"))
      by (lazy; reflexivity).
    assert (E1 : Apply demo_memory d demo_fs = (Ok tt, final a1, trace a1))
      by exact (run_eta a1 _ Ha1).
    assert (E2 : GetStats demo_memory (workload "memory") [] (final a1)
                 = (Ok [("memory.limit_in_bytes", "1048576")], final g1, trace g1))
      by exact (run_eta g1 _ Hg1).
    assert (E3 : Apply demo_cpu d (final g1) = (Ok tt, final a3, trace a3))
      by exact (run_eta a3 _ Ha3).
    assert (E4 : GetStats demo_cpu (workload "cpu") [("memory.limit_in_bytes", "1048576")]
                   (final a3)
                 = (Ok [("memory.limit_in_bytes", "1048576"); ("cpu.shares", "512")],
                    final g3, trace g3))
      by exact (run_eta g3 _ Hg3).
    pose proof (stats_read demo_env d "cpu" demo_cpu [] [("memory.limit_in_bytes", "1048576")]
                  (final g1) (final a3) (trace a3) (workload "cpu")
                  [("memory.limit_in_bytes", "1048576"); ("cpu.shares", "512")]
                  (final g3) (trace g3)
                  [("memory.limit_in_bytes", "1048576"); ("cpu.shares", "512")]
                  (final g3) [] E3 Hp3 E4 (stats_none demo_env d _ _)) as S1.
    pose proof (stats_skipped demo_env d "blkio" demo_blkio [("cpu", demo_cpu)]
                  [("memory.limit_in_bytes", "1048576")] (final g1) (final g1) []
                  (NotFoundError "blkio")
                  [("memory.limit_in_bytes", "1048576"); ("cpu.shares", "512")]
                  (final g3) _ eq_refl Hp2 eq_refl S1) as S2.
    pose proof (stats_read demo_env d "memory" demo_memory
                  [("blkio", demo_blkio); ("cpu", demo_cpu)] []
                  demo_fs (final a1) (trace a1) (workload "memory")
                  [("memory.limit_in_bytes", "1048576")] (final g1) (trace g1)
                  [("memory.limit_in_bytes", "1048576"); ("cpu.shares", "512")]
                  (final g3) _ E1 Hp1 E2 S2) as S3.
    destruct (proj1 (proj2 (proj2 (GetAllStats_applies_first demo_env order cg 4217%Z
                                     demo_fs)))
                d _ (final g3) _ eq_refl S3) as (Hr & Happ & Hset).
    fold r in Hr, Happ. split; [by rewrite Hr|]. split; [exact Happ|].
    assert (Hfinal : final r = final g3) by (by rewrite Hr).
    split.
    { rewrite Hfinal. apply Hset. intros name sys Hin p stats0 fs0. unfold order in Hin.
      apply elem_of_cons in Hin as [[= -> ->]|Hin]; [apply demo_stats_reads_only|].
      apply elem_of_cons in Hin as [[= -> ->]|Hin]; [reflexivity|].
      apply list_elem_of_singleton in Hin as [= -> ->]. apply demo_stats_reads_only. }
    split; [vm_compute; reflexivity|].
    rewrite Hfinal. split; vm_compute; reflexivity.
  - pose (d := {| c := cg'; pid := 4217%Z |}).
    pose (a1 := Apply demo_memory d demo_fs_nomask).
    pose (g1 := GetStats demo_memory (workload "memory") [] (final a1)).
    pose (a2 := Apply (CpusetGroup demo_env) d (final g1)).
    assert (Ha1 : outcome a1 = Ok tt) by (vm_compute; reflexivity).
    assert (Hg1 : outcome g1 = Ok [("memory.limit_in_bytes", "1048576")])
      by (vm_compute; reflexivity).
    assert (Ha2 : outcome a2
                  = Err (PathError "open" ("cpuset.cpus" :: "cpuset" :: sys_fs_cgroup)
                           ENOENT))
      by (vm_compute; reflexivity).
    assert (Hp1 : data_path demo_env d "memory" (final a1) = Ok (workload "memory"))
      by (lazy; reflexivity).
    assert (E1 : Apply demo_memory d demo_fs_nomask = (Ok tt, final a1, trace a1))
      by exact (run_eta a1 _ Ha1).
    assert (E2 : GetStats demo_memory (workload "memory") [] (final a1)
                 = (Ok [("memory.limit_in_bytes", "1048576")], final g1, trace g1))
      by exact (run_eta g1 _ Hg1).
    assert (E3 : Apply (CpusetGroup demo_env) d (final g1)
                 = (Err (PathError "open" ("cpuset.cpus" :: "cpuset" :: sys_fs_cgroup)
                           ENOENT), final a2, trace a2))
      by exact (run_eta a2 _ Ha2).
    pose proof (stats_read demo_env d "memory" demo_memory [] []
                  demo_fs_nomask (final a1) (trace a1) (workload "memory")
                  [("memory.limit_in_bytes", "1048576")] (final g1) (trace g1)
                  [("memory.limit_in_bytes", "1048576")] (final g1) []
                  E1 Hp1 E2 (stats_none demo_env d _ _)) as S1.
    pose proof (proj2 (proj2 (proj2 (GetAllStats_applies_first demo_env order' cg' 4217%Z
                                       demo_fs_nomask)))
                  [("memory", demo_memory)] "cpuset" (CpusetGroup demo_env)
                  [("cpu", demo_cpu)] d [("memory.limit_in_bytes", "1048576")]
                  (final g1) _ _ (final a2) (trace a2) eq_refl eq_refl S1 E3) as Hr.
    fold r' in Hr. rewrite Hr. split; reflexivity.
Defined.

(** ** The direct helpers *)

Lemma existsb_eqb_elem_of (x : string) (l : list string) :
  existsb (String.eqb x) l = true <-> x ∈ l.
Proof.
  rewrite existsb_exists. split.
  - intros (y & Hin & Heq). apply String.eqb_eq in Heq. subst y.
    by apply list_elem_of_In.
  - intros Hin. exists x. split; [by apply list_elem_of_In | apply String.eqb_refl].
Qed.

Lemma findGroup_unlisted order subsystem :
  (forall group files, (group, files) ∈ order -> subsystem ∉ files) ->
  findGroup order subsystem = Err ErrCanNotAccess.
Proof.
  induction order as [|[group files] order IH]; intros H; simpl; [reflexivity|].
  destruct (existsb (String.eqb subsystem) files) eqn:Hex.
  - apply existsb_eqb_elem_of in Hex. exfalso. apply (H group files); [left | exact Hex].
  - apply IH. intros g f Hin. apply (H g f). by right.
Qed.

Lemma findGroup_not_accessible order subsystem :
  range_order AccessaibleSubsystems order ->
  ~ accessible subsystem ->
  findGroup order subsystem = Err ErrCanNotAccess.
Proof.
  intros Hperm Hna. apply findGroup_unlisted. intros group files Hin Hs.
  apply Hna. exists group, files. split; [|exact Hs].
  unfold range_order in Hperm. by rewrite <- Hperm.
Qed.

Lemma getPath_not_accessible E order id driver subsystem fs :
  range_order AccessaibleSubsystems order ->
  ~ accessible subsystem ->
  getPath E order id driver subsystem fs
  = match FindCgroupMountpoint E "cpu" with
    | Err e => (Err e, fs, [OpMountpoint "cpu"])
    | Ok m =>
        (match stat fs (filepath.Dir m) with
         | Err _ => Err (Errorf "cgroups fs not found")
         | Ok _ => Err ErrCanNotAccess
         end, fs, [OpMountpoint "cpu"; OpStat (filepath.Dir m)])
    end.
Proof.
  intros Hperm Hna.
  unfold getPath, bind, lift, attempt, fail, ret, os.Stat, cgroups.FindCgroupMountpoint.
  rewrite (findGroup_not_accessible _ _ Hperm Hna).
  destruct (FindCgroupMountpoint E "cpu") as [m|e]; [|reflexivity].
  destruct (stat fs (filepath.Dir m)) as [n|e]; reflexivity.
Qed.

(** C9, as amended. For a file name outside the allow-list both direct
    helpers fail exactly as the shared resolver [getPath] does, with the
    filesystem unchanged and without reading or writing a file: all that
    is done is the lookup of the mount point of the cpu controller and, if
    that is found, one [Stat] of its parent directory.  The error is that
    of the lookup when the lookup fails, "cgroups fs not found" when the
    parent directory of the mount point cannot be examined, and
    [ErrCanNotAccess] otherwise; the resolver checks the hierarchy before
    it looks at the allow-list. *)
Theorem direct_access_rejects_unlisted E order id driver subsystem value fs :
  range_order AccessaibleSubsystems order ->
  ~ accessible subsystem ->
  let rp := getPath E order id driver subsystem fs in
  let rg := fs_Get E order id driver subsystem fs in
  let rs := fs_Set E order id driver subsystem value fs in
  (forall e, FindCgroupMountpoint E "cpu" = Err e ->
     rp = (Err e, fs, [OpMountpoint "cpu"]) /\
     rg = (Err e, fs, [OpMountpoint "cpu"]) /\
     rs = (Err e, fs, [OpMountpoint "cpu"])) /\
  (forall m e, FindCgroupMountpoint E "cpu" = Ok m ->
     stat fs (filepath.Dir m) = Err e ->
     let t := [OpMountpoint "cpu"; OpStat (filepath.Dir m)] in
     rp = (Err (Errorf "cgroups fs not found"), fs, t) /\
     rg = (Err (Errorf "cgroups fs not found"), fs, t) /\
     rs = (Err (Errorf "cgroups fs not found"), fs, t)) /\
  (forall m n, FindCgroupMountpoint E "cpu" = Ok m ->
     stat fs (filepath.Dir m) = Ok n ->
     let t := [OpMountpoint "cpu"; OpStat (filepath.Dir m)] in
     rp = (Err ErrCanNotAccess, fs, t) /\
     rg = (Err ErrCanNotAccess, fs, t) /\
     rs = (Err ErrCanNotAccess, fs, t)) /\
  filter is_access (trace rg) = [] /\
  filter is_access (trace rs) = [].
Proof.
  intros Hperm Hna rp rg rs. subst rp rg rs.
  pose proof (getPath_not_accessible E order id driver subsystem fs Hperm Hna) as Hget.
  unfold fs_Get, fs_Set.
  destruct (FindCgroupMountpoint E "cpu") as [m|e].
  - destruct (stat fs (filepath.Dir m)) as [n|e] eqn:Hst;
      rewrite !(bind_err _ _ _ _ _ _ Hget), Hget;
      (split; [discriminate|]);
      (split; [intros m' e' [= <-] Hst'; try congruence; auto|]);
      (split; [intros m' n' [= <-] Hst'; try congruence; auto|]);
      split; reflexivity.
  - rewrite !(bind_err _ _ _ _ _ _ Hget), Hget.
    split; [intros e' [= <-]; auto|].
    split; [discriminate|]. split; [discriminate|]. split; reflexivity.
Qed.

Lemma accessible_existsb subsystem :
  accessible subsystem ->
  existsb (fun entry => existsb (String.eqb subsystem) entry.2) AccessaibleSubsystems = true.
Proof.
  intros (group & files & Hin & Hs). apply existsb_exists.
  exists (group, files). split; [by apply list_elem_of_In|].
  by apply existsb_eqb_elem_of.
Qed.

Lemma bogus_not_accessible : ~ accessible "cpu.bogus".
Proof. intros H. apply accessible_existsb in H. vm_compute in H. discriminate H. Qed.

(** The three cases on concrete inputs: the mounted hierarchy, a
    filesystem on which nothing is mounted, and a mount table that cannot
    be read. *)
Lemma direct_access_rejects_unlisted_witness :
  (fs_Get demo_env AccessaibleSubsystems "c1" "docker" "cpu.bogus" demo_fs
   = (Err ErrCanNotAccess, demo_fs, [OpMountpoint "cpu"; OpStat sys_fs_cgroup]) /\
   fs_Set demo_env AccessaibleSubsystems "c1" "docker" "cpu.bogus" "7" demo_fs
   = (Err ErrCanNotAccess, demo_fs, [OpMountpoint "cpu"; OpStat sys_fs_cgroup])) /\
  (fs_Get demo_env AccessaibleSubsystems "c1" "docker" "cpu.bogus" ∅
   = (Err (Errorf "cgroups fs not found"), ∅, [OpMountpoint "cpu"; OpStat sys_fs_cgroup]) /\
   fs_Set demo_env AccessaibleSubsystems "c1" "docker" "cpu.bogus" "7" ∅
   = (Err (Errorf "cgroups fs not found"), ∅, [OpMountpoint "cpu"; OpStat sys_fs_cgroup])) /\
  (fs_Get demo_env_no_mounts AccessaibleSubsystems "c1" "docker" "cpu.bogus" demo_fs
   = (Err (NotFoundError "cpu"), demo_fs, [OpMountpoint "cpu"]) /\
   fs_Set demo_env_no_mounts AccessaibleSubsystems "c1" "docker" "cpu.bogus" "7" demo_fs
   = (Err (NotFoundError "cpu"), demo_fs, [OpMountpoint "cpu"])).
Proof.
  split; [|split].
  - destruct (direct_access_rejects_unlisted demo_env AccessaibleSubsystems "c1" "docker"
                "cpu.bogus" "7" demo_fs (Permutation_refl _) bogus_not_accessible)
      as (_ & _ & H & _).
    assert (Hst : stat demo_fs (filepath.Dir ("cpu" :: sys_fs_cgroup)) = Ok Directory)
      by (vm_compute; reflexivity).
    destruct (H ("cpu" :: sys_fs_cgroup) Directory eq_refl Hst) as (_ & Hg & Hs).
    split; [exact Hg | exact Hs].
  - destruct (direct_access_rejects_unlisted demo_env AccessaibleSubsystems "c1" "docker"
                "cpu.bogus" "7" ∅ (Permutation_refl _) bogus_not_accessible)
      as (_ & H & _).
    assert (Hst : stat (∅ : fsys) (filepath.Dir ("cpu" :: sys_fs_cgroup))
                  = Err (PathError "stat" sys_fs_cgroup ENOENT))
      by (vm_compute; reflexivity).
    destruct (H ("cpu" :: sys_fs_cgroup) _ eq_refl Hst) as (_ & Hg & Hs).
    split; [exact Hg | exact Hs].
  - destruct (direct_access_rejects_unlisted demo_env_no_mounts AccessaibleSubsystems
                "c1" "docker" "cpu.bogus" "7" demo_fs (Permutation_refl _)
                bogus_not_accessible)
      as (H & _).
    destruct (H (NotFoundError "cpu") eq_refl) as (_ & Hg & Hs).
    split; [exact Hg | exact Hs].
Defined.

(** C9, counterexample. Where the control filesystem is not mounted, a
    file name outside the allow-list fails with the resolver's "cgroups fs
    not found", not with [ErrCanNotAccess]. *)
Lemma direct_access_unlisted_other_error : ~ unlisted_is_ErrCanNotAccess demo_env.
Proof.
  intros H.
  destruct (H AccessaibleSubsystems "c1" "docker" "cpu.bogus" "7" ∅
              (Permutation_refl _) bogus_not_accessible) as [Hg _].
  assert (Hc : outcome (fs_Get demo_env AccessaibleSubsystems "c1" "docker" "cpu.bogus" ∅)
               = Err (Errorf "cgroups fs not found")) by (vm_compute; reflexivity).
  rewrite Hc in Hg. discriminate Hg.
Qed.

(** ** ContainerLimit *)

Lemma write_back_fields cg cfg :
  Config_Memory (write_back cg cfg)
  = (if decide (Memory cg = 0%Z) then Config_Memory cfg else Memory cg) /\
  Config_CpuShares (write_back cg cfg)
  = (if decide (CpuShares cg = 0%Z) then Config_CpuShares cfg else CpuShares cg) /\
  Config_Cpuset (write_back cg cfg)
  = (if decide (CpusetCpus cg = "") then Config_Cpuset cfg else CpusetCpus cg).
Proof.
  unfold write_back. repeat case_decide; simpl; repeat split; solve [reflexivity | tauto].
Qed.

(** C10. When the job names a running container, asks for persistence and
    [SetResources] succeeds, the stored configuration of that container
    takes the fields of the specification that are not zero or empty and
    keeps its own value in every other field; no other container is
    changed. *)
Theorem ContainerLimit_writes_back_set_fields E order containers job fs name container :
  Args job = [name] ->
  containers !! name = Some container ->
  IsRunning container = true ->
  GetenvBool job "saveChanges" = true ->
  is_ok (outcome (SetResources E order
           {| Name := ID container; Parent := ExecutionDriver_Parent E;
              Memory := GetenvInt64 job "memory";
              CpuShares := GetenvInt64 job "cpuShares";
              CpusetCpus := Getenv job "cpuset" |} (Pid container) fs)) = true ->
  let after := job_containers (ContainerLimit E order containers job fs) in
  let old := Config_of container in
  (exists container',
     after !! name = Some container' /\
     Config_Memory (Config_of container')
     = (if decide (GetenvInt64 job "memory" = 0%Z) then Config_Memory old
        else GetenvInt64 job "memory") /\
     Config_CpuShares (Config_of container')
     = (if decide (GetenvInt64 job "cpuShares" = 0%Z) then Config_CpuShares old
        else GetenvInt64 job "cpuShares") /\
     Config_Cpuset (Config_of container')
     = (if decide (Getenv job "cpuset" = "") then Config_Cpuset old
        else Getenv job "cpuset")) /\
  (forall other, other <> name -> after !! other = containers !! other).
Proof.
  intros Hargs Hget Hrun Hsave Hok after old. subst after old.
  unfold ContainerLimit, job_containers. rewrite Hargs, Hget, Hrun. simpl.
  destruct (SetResources E order _ (Pid container) fs) as [[[d|e] fs1] t1];
    [|discriminate Hok].
  rewrite Hsave.
  match goal with
  | |- context [ToDisk E ?x] => destruct (ToDisk E x)
  end; simpl.
  all: split; [| intros other Hne; by rewrite lookup_insert_ne].
  all: eexists; split; [apply lookup_insert_eq|]; simpl.
  all: apply write_back_fields.
Qed.

(** The scenario of the specification: 512 MiB of memory, the other
    fields unset, persistence requested. *)
Lemma ContainerLimit_writes_back_set_fields_witness :
  let after := job_containers (ContainerLimit demo_env (supportedSubsystems demo_env)
                 demo_containers (demo_job 536870912 0 "" true) demo_fs) in
  exists container',
    after !! "web" = Some container' /\
    Config_Memory (Config_of container') = 536870912%Z /\
    Config_CpuShares (Config_of container') = 512%Z /\
    Config_Cpuset (Config_of container') = "0-3".
Proof.
  refine (proj1 (ContainerLimit_writes_back_set_fields demo_env (supportedSubsystems demo_env)
            demo_containers (demo_job 536870912 0 "" true) demo_fs "web"
            {| ID := "c1"; Pid := 4217%Z; IsRunning := true;
               Config_of := {| Config_Memory := 1024; Config_CpuShares := 512;
                               Config_Cpuset := "0-3" |} |}
            eq_refl _ eq_refl eq_refl _)).
  - vm_compute. reflexivity.
  - vm_compute. reflexivity.
Defined.

(** ** Files *)

Lemma stat_ext fs fs' (q : path) :
  (forall q' : path, q' `suffix_of` q -> fs' !! q' = fs !! q') ->
  stat fs' q = stat fs q.
Proof.
  induction q as [|x q IH]; intros H; simpl; [reflexivity|].
  rewrite IH.
  - rewrite (H (x :: q)); [reflexivity | done].
  - intros q' Hq'. apply H. by apply suffix_cons_r.
Qed.

Lemma stat_insert_other fs (p q : path) n :
  ~ p `suffix_of` q -> stat (<[ p := n ]> fs) q = stat fs q.
Proof.
  intros Hp. apply stat_ext. intros q' Hq'.
  apply lookup_insert_ne. intros ->. by apply Hp.
Qed.

Lemma stat_child fs x (d : path) n :
  stat fs (x :: d) = Ok n -> stat fs d = Ok Directory /\ fs !! (x :: d) = Some n.
Proof.
  simpl. destruct (stat fs d) as [[|data]|e]; try discriminate.
  destruct (fs !! (x :: d)); [|discriminate]. intros [= ->]. auto.
Qed.

Lemma stat_child_intro fs x (d : path) n :
  stat fs d = Ok Directory -> fs !! (x :: d) = Some n -> stat fs (x :: d) = Ok n.
Proof. intros Hd Hx. simpl. rewrite Hd, Hx. reflexivity. Qed.

Lemma not_suffix_longer {A} (x : A) (d : list A) : ~ (x :: d) `suffix_of` d.
Proof. intros H. apply suffix_length in H. simpl in H. lia. Qed.

Lemma ReadFile_run p fs : ioutil.ReadFile p fs = (read fs p, fs, [OpRead p]).
Proof. reflexivity. Qed.

Lemma read_Ok fs p v : read fs p = Ok v <-> stat fs p = Ok (File v).
Proof.
  unfold read, outcome, ioutil.ReadFile. simpl.
  destruct (stat fs p) as [[|data]|e]; split; intros H; try discriminate; congruence.
Qed.

Lemma bind_ReadFile {B} p (k : string -> M op B) fs :
  bind (ioutil.ReadFile p) k fs
  = match read fs p with
    | Ok v => let '(r, fs2, t2) := k v fs in (r, fs2, OpRead p :: t2)
    | Err e => (Err e, fs, [OpRead p])
    end.
Proof.
  unfold bind. rewrite ReadFile_run. destruct (read fs p); [|reflexivity].
  destruct (k a fs) as [[r fs2] t2]. reflexivity.
Qed.

Lemma writeFile_run dir file data fs old :
  filepath.Join dir file = file :: dir ->
  stat fs (file :: dir) = Ok (File old) ->
  writeFile dir file data fs
  = (Ok tt, <[ file :: dir := File data ]> fs, [OpWrite (file :: dir) data]).
Proof.
  intros Hjoin Hst. apply stat_child in Hst as [Hd Hf].
  unfold writeFile, ioutil.WriteFile. rewrite Hjoin, Hd, Hf. reflexivity.
Qed.

Lemma getSubsystemSettings_run d fs :
  getSubsystemSettings d fs
  = match read fs ("cpuset.cpus" :: d) with
    | Ok cpus =>
        match read fs ("cpuset.mems" :: d) with
        | Ok mems => (Ok (cpus, mems), fs,
                      [OpRead ("cpuset.cpus" :: d); OpRead ("cpuset.mems" :: d)])
        | Err e => (Err e, fs, [OpRead ("cpuset.cpus" :: d); OpRead ("cpuset.mems" :: d)])
        end
    | Err e => (Err e, fs, [OpRead ("cpuset.cpus" :: d)])
    end.
Proof.
  unfold getSubsystemSettings. rewrite bind_ReadFile.
  change (filepath.Join d "cpuset.cpus") with ("cpuset.cpus" :: d).
  change (filepath.Join d "cpuset.mems") with ("cpuset.mems" :: d).
  destruct (read fs ("cpuset.cpus" :: d)) as [cpus|e]; [|reflexivity].
  rewrite bind_ReadFile.
  destruct (read fs ("cpuset.mems" :: d)) as [mems|e]; reflexivity.
Qed.

(** Where the four mask files can be read, [copyIfNeeded] succeeds: it
    reads the four, then writes the masks that are empty. *)
Lemma copyIfNeeded_ok current parent fs cc cm pc pm :
  stat fs ("cpuset.cpus" :: current) = Ok (File cc) ->
  stat fs ("cpuset.mems" :: current) = Ok (File cm) ->
  stat fs ("cpuset.cpus" :: parent) = Ok (File pc) ->
  stat fs ("cpuset.mems" :: parent) = Ok (File pm) ->
  copyIfNeeded current parent fs
  = (Ok tt,
     copy_mask "cpuset.mems" current cm pm (copy_mask "cpuset.cpus" current cc pc fs),
     mask_reads current parent
       ++ copy_write "cpuset.cpus" current cc pc ++ copy_write "cpuset.mems" current cm pm).
Proof.
  intros Hcc Hcm Hpc Hpm.
  assert (Hcm' : stat (copy_mask "cpuset.cpus" current cc pc fs) ("cpuset.mems" :: current)
                 = Ok (File cm)).
  { unfold copy_mask. destruct (isEmpty cc); [|exact Hcm].
    rewrite stat_insert_other; [exact Hcm|].
    intros Hs. apply suffix_cons_inv in Hs as [[=]|Hs].
    by apply not_suffix_longer in Hs. }
  unfold copyIfNeeded.
  rewrite (bind_ok _ _ fs (cc, cm) fs
             [OpRead ("cpuset.cpus" :: current); OpRead ("cpuset.mems" :: current)]).
  2: { rewrite getSubsystemSettings_run.
       apply read_Ok in Hcc, Hcm. rewrite Hcc, Hcm. reflexivity. }
  rewrite (bind_ok _ _ fs (pc, pm) fs
             [OpRead ("cpuset.cpus" :: parent); OpRead ("cpuset.mems" :: parent)]).
  2: { rewrite getSubsystemSettings_run.
       apply read_Ok in Hpc, Hpm. rewrite Hpc, Hpm. reflexivity. }
  simpl fst. simpl snd.
  rewrite (bind_ok _ _ fs tt (copy_mask "cpuset.cpus" current cc pc fs)
             (copy_write "cpuset.cpus" current cc pc)).
  2: { unfold copy_mask, copy_write. destruct (isEmpty cc); [|reflexivity].
       by apply (writeFile_run _ _ _ _ cc). }
  assert (Hw : (if isEmpty cm then writeFile current "cpuset.mems" pm else ret tt)
                 (copy_mask "cpuset.cpus" current cc pc fs)
               = (Ok tt,
                  copy_mask "cpuset.mems" current cm pm
                    (copy_mask "cpuset.cpus" current cc pc fs),
                  copy_write "cpuset.mems" current cm pm)).
  { unfold copy_mask at 2. unfold copy_write. destruct (isEmpty cm); [|reflexivity].
    by apply (writeFile_run _ _ _ _ cm). }
  rewrite Hw. reflexivity.
Qed.

(** Where one of them cannot be read, it fails at that read and writes
    nothing. *)
Lemma copyIfNeeded_err current parent fs :
  (forall cc cm pc pm,
     ~ (stat fs ("cpuset.cpus" :: current) = Ok (File cc) /\
        stat fs ("cpuset.mems" :: current) = Ok (File cm) /\
        stat fs ("cpuset.cpus" :: parent) = Ok (File pc) /\
        stat fs ("cpuset.mems" :: parent) = Ok (File pm))) ->
  exists e k,
    copyIfNeeded current parent fs = (Err e, fs, take k (mask_reads current parent)).
Proof.
  intros Hnot. unfold copyIfNeeded, bind. rewrite getSubsystemSettings_run.
  destruct (read fs ("cpuset.cpus" :: current)) as [cc|e] eqn:Hcc;
    [|by exists e, 1%nat].
  destruct (read fs ("cpuset.mems" :: current)) as [cm|e] eqn:Hcm;
    [|by exists e, 2%nat].
  rewrite getSubsystemSettings_run.
  destruct (read fs ("cpuset.cpus" :: parent)) as [pc|e] eqn:Hpc;
    [|by exists e, 3%nat].
  destruct (read fs ("cpuset.mems" :: parent)) as [pm|e] eqn:Hpm;
    [|by exists e, 4%nat].
  exfalso. apply (Hnot cc cm pc pm). by rewrite <- !read_Ok.
Qed.

Lemma copyIfNeeded_cases current parent fs :
  (exists cc cm pc pm,
     stat fs ("cpuset.cpus" :: current) = Ok (File cc) /\
     stat fs ("cpuset.mems" :: current) = Ok (File cm) /\
     stat fs ("cpuset.cpus" :: parent) = Ok (File pc) /\
     stat fs ("cpuset.mems" :: parent) = Ok (File pm) /\
     copyIfNeeded current parent fs
     = (Ok tt,
        copy_mask "cpuset.mems" current cm pm (copy_mask "cpuset.cpus" current cc pc fs),
        mask_reads current parent
          ++ copy_write "cpuset.cpus" current cc pc
          ++ copy_write "cpuset.mems" current cm pm)) \/
  (exists e k,
     copyIfNeeded current parent fs = (Err e, fs, take k (mask_reads current parent))).
Proof.
  destruct (stat fs ("cpuset.cpus" :: current)) as [[|cc]|e1] eqn:H1;
    [right; apply copyIfNeeded_err; intros ? ? ? ? (? & _); congruence | |
     right; apply copyIfNeeded_err; intros ? ? ? ? (? & _); congruence].
  destruct (stat fs ("cpuset.mems" :: current)) as [[|cm]|e2] eqn:H2;
    [right; apply copyIfNeeded_err; intros ? ? ? ? (_ & ? & _); congruence | |
     right; apply copyIfNeeded_err; intros ? ? ? ? (_ & ? & _); congruence].
  destruct (stat fs ("cpuset.cpus" :: parent)) as [[|pc]|e3] eqn:H3;
    [right; apply copyIfNeeded_err; intros ? ? ? ? (_ & _ & ? & _); congruence | |
     right; apply copyIfNeeded_err; intros ? ? ? ? (_ & _ & ? & _); congruence].
  destruct (stat fs ("cpuset.mems" :: parent)) as [[|pm]|e4] eqn:H4;
    [right; apply copyIfNeeded_err; intros ? ? ? ? (_ & _ & _ & ?); congruence | |
     right; apply copyIfNeeded_err; intros ? ? ? ? (_ & _ & _ & ?); congruence].
  left. exists cc, cm, pc, pm. repeat split; try reflexivity.
  by apply copyIfNeeded_ok.
Qed.

Lemma mask_reads_no_write current parent k p v :
  OpWrite p v ∉ take k (mask_reads current parent).
Proof.
  intros H. apply elem_of_take in H as (i & H & _). unfold mask_reads in H.
  destruct i as [|[|[|[|i]]]]; simpl in H; discriminate H.
Qed.

Lemma copy_write_elem file current cur par p v :
  OpWrite p v ∈ copy_write file current cur par ->
  p = file :: current /\ v = par /\ isEmpty cur = true.
Proof.
  unfold copy_write. destruct (isEmpty cur); intros H.
  - apply list_elem_of_singleton in H as [= -> ->]. auto.
  - by apply elem_of_nil in H.
Qed.

Lemma isEmpty_length b :
  isEmpty b = true <-> String.length (bytes.Trim b newline) = 0%nat.
Proof. unfold isEmpty. apply bool_decide_eq_true. Qed.

(** C5. [copyIfNeeded] reads the two mask files of the current directory,
    then the two of the parent, and writes only after the four reads.
    Every write goes into a mask file of the current directory whose
    content, trimmed of newlines, has length zero, and carries the value
    of the parent's file; a mask of the current directory that is not
    empty is the same afterwards; and on success an empty one holds the
    parent's value. *)
Theorem copyIfNeeded_copies_only_into_empty current parent fs :
  let r := copyIfNeeded current parent fs in
  let masks := ["cpuset.cpus"; "cpuset.mems"] in
  (exists k writes,
     trace r = take k (mask_reads current parent) ++ writes /\
     Forall (fun o => is_write o = true) writes /\
     (writes <> [] -> k = 4%nat)) /\
  (forall p v, OpWrite p v ∈ trace r ->
     exists file cur,
       file ∈ masks /\ p = file :: current /\
       stat fs (file :: current) = Ok (File cur) /\
       String.length (bytes.Trim cur newline) = 0%nat /\
       stat fs (file :: parent) = Ok (File v)) /\
  (forall file cur,
     file ∈ masks ->
     stat fs (file :: current) = Ok (File cur) ->
     String.length (bytes.Trim cur newline) <> 0%nat ->
     final r !! (file :: current) = Some (File cur)) /\
  (outcome r = Ok tt ->
   forall file cur,
     file ∈ masks ->
     stat fs (file :: current) = Ok (File cur) ->
     String.length (bytes.Trim cur newline) = 0%nat ->
     exists v, stat fs (file :: parent) = Ok (File v) /\
               final r !! (file :: current) = Some (File v)).
Proof.
  intros r masks. subst r masks.
  destruct (copyIfNeeded_cases current parent fs)
    as [(cc & cm & pc & pm & Hcc & Hcm & Hpc & Hpm & ->)|(e & k & ->)];
    unfold trace, final, outcome; cbn [fst snd].
  - split; [|split; [|split]].
    + exists 4%nat, (copy_write "cpuset.cpus" current cc pc
                     ++ copy_write "cpuset.mems" current cm pm).
      split; [reflexivity|]. split; [|reflexivity].
      unfold copy_write. destruct (isEmpty cc), (isEmpty cm); repeat constructor.
    + intros p v H. apply elem_of_app in H as [H|H].
      { exfalso. by apply (mask_reads_no_write current parent 4 p v). }
      apply elem_of_app in H as [H|H]; apply copy_write_elem in H as (-> & -> & He);
        apply isEmpty_length in He.
      * exists "cpuset.cpus", cc. repeat split; auto. set_solver.
      * exists "cpuset.mems", cm. repeat split; auto. set_solver.
    + intros file cur Hfile Hst Hne.
      assert (He : isEmpty cur = false).
      { destruct (isEmpty cur) eqn:He; [|reflexivity]. by apply isEmpty_length in He. }
      apply elem_of_cons in Hfile as [->|Hfile];
        [|apply list_elem_of_singleton in Hfile as ->].
      * rewrite Hcc in Hst. injection Hst as <-.
        unfold copy_mask. rewrite He.
        destruct (isEmpty cm); [rewrite lookup_insert_ne; [|discriminate]|];
          by apply stat_child in Hcc as [_ ?].
      * rewrite Hcm in Hst. injection Hst as <-.
        unfold copy_mask. rewrite He.
        destruct (isEmpty cc); [rewrite lookup_insert_ne; [|discriminate]|];
          by apply stat_child in Hcm as [_ ?].
    + intros _ file cur Hfile Hst He. apply isEmpty_length in He.
      apply elem_of_cons in Hfile as [->|Hfile];
        [|apply list_elem_of_singleton in Hfile as ->].
      * rewrite Hcc in Hst. injection Hst as <-. exists pc. split; [exact Hpc|].
        unfold copy_mask. rewrite He.
        destruct (isEmpty cm); [rewrite lookup_insert_ne; [|discriminate]|];
          apply lookup_insert_eq.
      * rewrite Hcm in Hst. injection Hst as <-. exists pm. split; [exact Hpm|].
        unfold copy_mask. rewrite He. apply lookup_insert_eq.
  - split; [|split; [|split]].
    + exists k, []. rewrite app_nil_r. repeat split; [constructor | done].
    + intros p v H. exfalso. by apply (mask_reads_no_write current parent k p v).
    + intros file cur _ Hst _. by apply stat_child in Hst as [_ ?].
    + discriminate.
Qed.

(** A directory whose cpus mask is set and whose mems mask is a lone
    newline, below the root of the hierarchy: only the mems mask is
    copied. *)
Lemma copyIfNeeded_copies_only_into_empty_witness :
  let current := "docker" :: "cpuset" :: sys_fs_cgroup in
  let fs := <[ "cpuset.mems" :: current := File (nl "") ]>
            (<[ "cpuset.cpus" :: current := File (nl "1") ]>
            (<[ current := Directory ]> demo_fs)) in
  let r := copyIfNeeded current ("cpuset" :: sys_fs_cgroup) fs in
  final r !! ("cpuset.cpus" :: current) = Some (File (nl "1")) /\
  (exists v, stat fs ("cpuset.mems" :: "cpuset" :: sys_fs_cgroup) = Ok (File v) /\
             final r !! ("cpuset.mems" :: current) = Some (File v)).
Proof.
  intros current fs r.
  destruct (copyIfNeeded_copies_only_into_empty current ("cpuset" :: sys_fs_cgroup) fs)
    as (_ & _ & Hkeep & Hcopy).
  split.
  - apply (Hkeep "cpuset.cpus" (nl "1")).
    + repeat constructor.
    + vm_compute. reflexivity.
    + vm_compute. discriminate.
  - apply (Hcopy ltac:(vm_compute; reflexivity) "cpuset.mems" (nl "")).
    + repeat constructor.
    + vm_compute. reflexivity.
    + vm_compute. reflexivity.
Defined.

(** ** Directories *)

Lemma populate_lookup_ne files (p q : path) fs :
  (forall f, f ∈ files.*1 -> q <> f :: p) ->
  populate files p fs !! q = fs !! q.
Proof.
  induction files as [|[f v] files IH]; intros H; simpl; [reflexivity|].
  rewrite lookup_insert_ne.
  - apply IH. intros f' Hf'. apply H. simpl. by right.
  - intros Heq. apply (H f); [simpl; by left | done].
Qed.

Lemma populate_lookup_in files (p : path) fs f :
  f ∈ files.*1 -> exists v, populate files p fs !! (f :: p) = Some (File v).
Proof.
  induction files as [|[f' v'] files IH]; simpl; intros H.
  - by apply elem_of_nil in H.
  - destruct (decide (f' = f)) as [->|Hne].
    + exists v'. apply lookup_insert_eq.
    + apply elem_of_cons in H as [H|H]; [congruence|].
      destruct (IH H) as [v Hv]. exists v. rewrite lookup_insert_ne; [exact Hv|congruence].
Qed.

Lemma MkdirAll_exists files p fs :
  stat fs p = Ok Directory -> os.MkdirAll files p fs = (Ok tt, fs, []).
Proof. intros H. destruct p; simpl in *; [reflexivity|]. rewrite H. reflexivity. Qed.

Lemma MkdirAll_new files x (parent : path) fs :
  stat fs parent = Ok Directory ->
  fs !! (x :: parent) = None ->
  os.MkdirAll files (x :: parent) fs
  = (Ok tt, populate files (x :: parent) (<[ x :: parent := Directory ]> fs),
     [OpMkdir (x :: parent)]).
Proof.
  intros Hp Hx. simpl. rewrite Hp, Hx.
  rewrite (MkdirAll_exists _ _ _ Hp). unfold mkdir. rewrite Hp, Hx. reflexivity.
Qed.

(** What is not at or below a new directory keeps its status. *)
Lemma stat_mkdir_other files (p q : path) fs :
  ~ p `suffix_of` q ->
  stat (populate files p (<[ p := Directory ]> fs)) q = stat fs q.
Proof.
  intros Hp. apply stat_ext. intros q' Hq'.
  rewrite populate_lookup_ne.
  - apply lookup_insert_ne. intros ->. by apply Hp.
  - intros f _ ->. apply Hp. etransitivity; [|exact Hq']. by apply suffix_cons_r.
Qed.

Lemma stat_mkdir_self files x (parent : path) fs :
  stat fs parent = Ok Directory ->
  stat (populate files (x :: parent) (<[ x :: parent := Directory ]> fs)) (x :: parent)
  = Ok Directory.
Proof.
  intros Hp. apply stat_child_intro.
  - rewrite stat_mkdir_other; [exact Hp | apply not_suffix_longer].
  - rewrite populate_lookup_ne; [apply lookup_insert_eq|].
    intros f _ Heq. apply (f_equal length) in Heq. simpl in Heq. lia.
Qed.

Lemma lookup_copy_mask_ne file (current q : path) cur par fs :
  q <> file :: current -> copy_mask file current cur par fs !! q = fs !! q.
Proof.
  intros H. unfold copy_mask. destruct (isEmpty cur); [|reflexivity].
  by apply lookup_insert_ne.
Qed.

Lemma lookup_copy_mask_eq file (current : path) cur par fs :
  fs !! (file :: current) = Some (File cur) ->
  copy_mask file current cur par fs !! (file :: current)
  = Some (File (if isEmpty cur then par else cur)).
Proof.
  intros H. unfold copy_mask. destruct (isEmpty cur); [apply lookup_insert_eq | exact H].
Qed.

Lemma stat_copy_mask file (current q : path) cur par fs :
  ~ (file :: current) `suffix_of` q ->
  stat (copy_mask file current cur par fs) q = stat fs q.
Proof.
  intros H. unfold copy_mask. destruct (isEmpty cur); [|reflexivity].
  by apply stat_insert_other.
Qed.

Lemma isEmpty_copied cur par :
  isEmpty par = false -> isEmpty (if isEmpty cur then par else cur) = false.
Proof. intros H. destruct (isEmpty cur) eqn:Hc; [exact H | exact Hc]. Qed.

Lemma mkdirs_copy current parent cc cm pc pm :
  mkdirs (mask_reads current parent
            ++ copy_write "cpuset.cpus" current cc pc
            ++ copy_write "cpuset.mems" current cm pm) = [].
Proof. unfold copy_write. destruct (isEmpty cc), (isEmpty cm); reflexivity. Qed.

Lemma make_and_copy_run E current fs fs1 t1 :
  os.MkdirAll (kernel_files E) current fs = (Ok tt, fs1, t1) ->
  make_and_copy E current fs
  = (let '(r, fs2, t2) := copyIfNeeded current (filepath.Dir current) fs1 in
     (r, fs2, t1 ++ t2)).
Proof.
  intros H. unfold make_and_copy, bind, attempt, ret. rewrite H.
  destruct (copyIfNeeded current (filepath.Dir current) fs1) as [[r fs2] t2].
  reflexivity.
Qed.

(** The step of the walk for a directory that is not there yet, below a
    parent that is there with its masks set. *)
Lemma make_and_copy_new E (parent : path) x fs :
  stat fs parent = Ok Directory ->
  masks_set fs parent ->
  fs !! (x :: parent) = None ->
  x ∉ (kernel_files E).*1 ->
  "cpuset.cpus" ∈ (kernel_files E).*1 ->
  "cpuset.mems" ∈ (kernel_files E).*1 ->
  exists fs' t,
    make_and_copy E (x :: parent) fs = (Ok tt, fs', OpMkdir (x :: parent) :: t) /\
    mkdirs t = [] /\
    stat fs' (x :: parent) = Ok Directory /\
    masks_set fs' (x :: parent) /\
    (forall q, ~ touched (kernel_files E) [x :: parent] q -> fs' !! q = fs !! q).
Proof.
  intros Hp (pc & pm & Hpc & Hpce & Hpm & Hpme) Hx Hxf Hcpus Hmems.
  set (current := x :: parent).
  set (fs1 := populate (kernel_files E) current (<[ current := Directory ]> fs)).
  assert (Hcur : stat fs1 current = Ok Directory) by by apply stat_mkdir_self.
  destruct (populate_lookup_in (kernel_files E) current (<[ current := Directory ]> fs)
              "cpuset.cpus" Hcpus) as [cc Hcc].
  destruct (populate_lookup_in (kernel_files E) current (<[ current := Directory ]> fs)
              "cpuset.mems" Hmems) as [cm Hcm].
  fold fs1 in Hcc, Hcm.
  assert (Hpar : stat fs1 parent = Ok Directory).
  { unfold fs1. rewrite stat_mkdir_other; [exact Hp | apply not_suffix_longer]. }
  assert (Hkeep : forall f, f ∈ (kernel_files E).*1 -> fs1 !! (f :: parent) = fs !! (f :: parent)).
  { intros f Hf. unfold fs1. rewrite populate_lookup_ne.
    - apply lookup_insert_ne. unfold current. intros [= ->]. by apply Hxf.
    - intros f' _ Heq. apply (f_equal length) in Heq. simpl in Heq. lia. }
  exists (copy_mask "cpuset.mems" current cm pm (copy_mask "cpuset.cpus" current cc pc fs1)),
         (mask_reads current parent
            ++ copy_write "cpuset.cpus" current cc pc
            ++ copy_write "cpuset.mems" current cm pm).
  split; [|split; [|split; [|split]]].
  - rewrite (make_and_copy_run E current fs fs1 [OpMkdir current]).
    2: { by apply MkdirAll_new. }
    change (filepath.Dir current) with parent.
    rewrite (copyIfNeeded_ok current parent fs1 cc cm pc pm); [reflexivity | | | |].
    + by apply stat_child_intro.
    + by apply stat_child_intro.
    + apply stat_child_intro; [exact Hpar|]. by rewrite Hkeep.
    + apply stat_child_intro; [exact Hpar|]. by rewrite Hkeep.
  - apply mkdirs_copy.
  - rewrite !stat_copy_mask; [exact Hcur | |]; apply not_suffix_longer.
  - exists (if isEmpty cc then pc else cc), (if isEmpty cm then pm else cm).
    split; [|split; [|split]].
    + rewrite lookup_copy_mask_ne; [|discriminate]. by apply lookup_copy_mask_eq.
    + by apply isEmpty_copied.
    + apply lookup_copy_mask_eq. rewrite lookup_copy_mask_ne; [exact Hcm | discriminate].
    + by apply isEmpty_copied.
  - intros q Hq.
    assert (Hq1 : q <> current).
    { intros ->. apply Hq. exists current. split; [by left | by left]. }
    assert (Hq2 : forall f, f ∈ (kernel_files E).*1 -> q <> f :: current).
    { intros f Hf ->. apply Hq. exists current. split; [by left|]. right. by exists f. }
    rewrite !lookup_copy_mask_ne; [| by apply Hq2 | by apply Hq2].
    unfold fs1. rewrite populate_lookup_ne; [|exact Hq2].
    by apply lookup_insert_ne.
Qed.

(** The same step for a directory that is there with its masks set:
    nothing is made and nothing is written. *)
Lemma make_and_copy_again E (parent : path) x fs :
  stat fs (x :: parent) = Ok Directory ->
  masks_set fs (x :: parent) ->
  masks_set fs parent ->
  make_and_copy E (x :: parent) fs = (Ok tt, fs, mask_reads (x :: parent) parent).
Proof.
  intros Hcur (cc & cm & Hcc & Hcce & Hcm & Hcme) (pc & pm & Hpc & Hpce & Hpm & Hpme).
  assert (Hp : stat fs parent = Ok Directory) by by apply stat_child in Hcur as [? _].
  rewrite (make_and_copy_run E (x :: parent) fs fs []).
  2: { by apply MkdirAll_exists. }
  change (filepath.Dir (x :: parent)) with parent.
  rewrite (copyIfNeeded_ok (x :: parent) parent fs cc cm pc pm);
    try by apply stat_child_intro.
  unfold copy_mask, copy_write. rewrite Hcce, Hcme. rewrite !app_nil_r. reflexivity.
Qed.

Lemma ensureParent_eq E (current : path) :
  ensureParent E current
  = (st <- attempt (os.Stat (filepath.Dir current)) ;;
     match st with
     | Err err =>
         if negb (os.IsNotExist err) then fail err
         else match current with
              | _ :: parent' => ensureParent E parent'
              | [] => fail err
              end
     | Ok _ => ret tt
     end ;;;
     make_and_copy E current).
Proof. destruct current; reflexivity. Qed.

(** The three ways through the first half of [ensureParent]. *)
Lemma ensureParent_parent_exists E (current : path) fs n :
  stat fs (filepath.Dir current) = Ok n ->
  ensureParent E current fs
  = (let '(r, fs', t) := make_and_copy E current fs in
     (r, fs', OpStat (filepath.Dir current) :: t)).
Proof.
  intros H. rewrite ensureParent_eq.
  unfold bind at 1. unfold attempt, os.Stat. rewrite H.
  unfold bind, ret.
  destruct (make_and_copy E current fs) as [[r fs'] t]. reflexivity.
Qed.

Lemma ensureParent_parent_missing E x (parent : path) fs err :
  stat fs parent = Err err ->
  os.IsNotExist err = true ->
  ensureParent E (x :: parent) fs
  = match ensureParent E parent fs with
    | (Ok _, fs1, t1) =>
        let '(r, fs2, t2) := make_and_copy E (x :: parent) fs1 in
        (r, fs2, OpStat parent :: t1 ++ t2)
    | (Err e, fs1, t1) => (Err e, fs1, OpStat parent :: t1)
    end.
Proof.
  intros H Hne. rewrite ensureParent_eq.
  unfold bind at 1. unfold attempt, os.Stat.
  change (filepath.Dir (x :: parent)) with parent. rewrite H, Hne.
  unfold bind. cbn [negb].
  destruct (ensureParent E parent fs) as [[[[]|e] fs1] t1]; [|reflexivity].
  destruct (make_and_copy E (x :: parent) fs1) as [[r fs2] t2]. reflexivity.
Qed.

Lemma ensureParent_stat_error E (current : path) fs err :
  stat fs (filepath.Dir current) = Err err ->
  os.IsNotExist err = false ->
  ensureParent E current fs = (Err err, fs, [OpStat (filepath.Dir current)]).
Proof.
  intros H Hne. rewrite ensureParent_eq.
  unfold bind at 1. unfold attempt, os.Stat. rewrite H, Hne.
  reflexivity.
Qed.

(** ** The chain of directories *)

Lemma new_dirs_length (t r d : path) :
  d ∈ new_dirs t r -> (length r < length d <= length (t ++ r))%nat.
Proof.
  induction t as [|x t IH]; simpl; intros H.
  - by apply elem_of_nil in H.
  - apply elem_of_app in H as [H|H].
    + apply IH in H. lia.
    + apply list_elem_of_singleton in H as ->. simpl. rewrite length_app. lia.
Qed.

Lemma new_dirs_parent (t r : path) : t <> [] -> t ++ r ∈ new_dirs t r.
Proof.
  destruct t as [|x t]; [done|]. intros _. simpl.
  apply elem_of_app. right. by apply list_elem_of_singleton.
Qed.

Lemma mkdirs_app t1 t2 : mkdirs (t1 ++ t2) = mkdirs t1 ++ mkdirs t2.
Proof. apply omap_app. Qed.

Lemma touched_app files ds1 ds2 q :
  touched files (ds1 ++ ds2) q <-> touched files ds1 q \/ touched files ds2 q.
Proof.
  unfold touched. split.
  - intros (d & Hd & H). apply elem_of_app in Hd as [Hd|Hd]; [left|right]; eauto.
  - intros [(d & Hd & H)|(d & Hd & H)]; exists d; (split; [|exact H]);
      apply elem_of_app; auto.
Qed.

(** No directory of the chain exists: resolving the last one fails with
    "does not exist". *)
Lemma stat_missing fs (t r : path) :
  stat fs r = Ok Directory ->
  t <> [] ->
  (forall d, d ∈ new_dirs t r -> fs !! d = None) ->
  exists err, stat fs (t ++ r) = Err err /\ os.IsNotExist err = true.
Proof.
  intros Hr. induction t as [|x t IH]; [done|]. intros _ Hnone.
  destruct t as [|y t].
  - simpl. rewrite Hr. rewrite (Hnone (x :: r)); [eauto|]. simpl. by left.
  - destruct IH as (err & Herr & Hne); [done | |].
    + intros d Hd. apply Hnone. simpl. simpl in Hd. apply elem_of_app. by left.
    + change (stat fs ((x :: y :: t) ++ r))
        with (match stat fs ((y :: t) ++ r) with
              | Ok Directory =>
                  match fs !! ((x :: y :: t) ++ r) with
                  | Some n => Ok n
                  | None => Err (PathError "stat" ((x :: y :: t) ++ r) ENOENT)
                  end
              | Ok (File _) => Err (PathError "stat" ((x :: y :: t) ++ r) ENOTDIR)
              | Err e => Err (path_error "stat" ((x :: y :: t) ++ r) e)
              end).
      rewrite Herr. destruct err; try discriminate Hne; eauto.
Qed.

(** A step at [x :: parent] leaves the directories that are not longer
    than [parent] as they are. *)
Lemma step_preserves files fs1 fs2 x (parent d : path) :
  (forall q, ~ touched files [x :: parent] q -> fs2 !! q = fs1 !! q) ->
  (length d <= length parent)%nat ->
  x ∉ files.*1 ->
  "cpuset.cpus" ∈ files.*1 ->
  "cpuset.mems" ∈ files.*1 ->
  stat fs1 d = Ok Directory /\ masks_set fs1 d ->
  stat fs2 d = Ok Directory /\ masks_set fs2 d.
Proof.
  intros Hframe Hlen Hx Hcpus Hmems [Hst (cc & cm & Hcc & Hcce & Hcm & Hcme)].
  assert (Hmask : forall f, f ∈ files.*1 -> fs2 !! (f :: d) = fs1 !! (f :: d)).
  { intros f Hf. apply Hframe. intros (d' & Hd' & H).
    apply list_elem_of_singleton in Hd' as ->.
    destruct H as [H|(f' & _ & H)].
    - injection H as -> _. by apply Hx.
    - apply (f_equal length) in H. simpl in H. lia. }
  split.
  - rewrite <- Hst. apply stat_ext. intros q' Hq'. apply Hframe.
    intros (d' & Hd' & H). apply list_elem_of_singleton in Hd' as ->.
    apply suffix_length in Hq'.
    destruct H as [H|(f' & _ & H)]; apply (f_equal length) in H; simpl in H; lia.
  - exists cc, cm. rewrite !Hmask by assumption. auto.
Qed.

Lemma ensureParent_chain E (r : path) :
  "cpuset.cpus" ∈ (kernel_files E).*1 ->
  "cpuset.mems" ∈ (kernel_files E).*1 ->
  forall (t : path) fs,
    t <> [] ->
    stat fs r = Ok Directory ->
    masks_set fs r ->
    (forall d, d ∈ new_dirs t r -> fs !! d = None) ->
    (forall x, x ∈ t -> x ∉ (kernel_files E).*1) ->
    exists fs' tr,
      ensureParent E (t ++ r) fs = (Ok tt, fs', tr) /\
      mkdirs tr = new_dirs t r /\
      (forall d, d ∈ r :: new_dirs t r -> stat fs' d = Ok Directory /\ masks_set fs' d) /\
      (forall q, ~ touched (kernel_files E) (new_dirs t r) q -> fs' !! q = fs !! q).
Proof.
  intros Hcpus Hmems. induction t as [|x t IH]; [done|].
  intros fs _ Hr Hmr Hnone Hnames.
  assert (Hx : x ∉ (kernel_files E).*1) by (apply Hnames; by left).
  destruct (decide (t = [])) as [->|Ht].
  - (* the directory next to the root *)
    destruct (make_and_copy_new E r x fs Hr Hmr) as (fs' & tr & Hrun & Hmk & Hst & Hm & Hframe);
      try assumption.
    { apply Hnone. simpl. by left. }
    exists fs', (OpStat r :: OpMkdir (x :: r) :: tr). split; [|split; [|split]].
    + change ([x] ++ r) with (x :: r).
      rewrite (ensureParent_parent_exists E (x :: r) fs Directory Hr). rewrite Hrun.
      reflexivity.
    + change (mkdirs (OpStat r :: OpMkdir (x :: r) :: tr)) with ((x :: r) :: mkdirs tr).
      rewrite Hmk. reflexivity.
    + intros d Hd. simpl in Hd. apply elem_of_cons in Hd as [->|Hd].
      * apply (step_preserves (kernel_files E) fs fs' x r r); auto.
      * apply list_elem_of_singleton in Hd as ->. auto.
    + exact Hframe.
  - (* a deeper directory: the parent is made first *)
    destruct (stat_missing fs t r Hr Ht) as (err & Herr & Hne).
    { intros d Hd. apply Hnone. simpl. apply elem_of_app. by left. }
    destruct (IH fs Ht Hr Hmr) as (fs1 & tr1 & Hrun1 & Hmk1 & Hgood1 & Hframe1).
    { intros d Hd. apply Hnone. simpl. apply elem_of_app. by left. }
    { intros y Hy. apply Hnames. by right. }
    destruct (Hgood1 (t ++ r)) as [Hst1 Hm1].
    { right. by apply new_dirs_parent. }
    assert (Hfree : fs1 !! (x :: t ++ r) = None).
    { rewrite Hframe1.
      - apply Hnone. simpl. apply elem_of_app. right. by apply list_elem_of_singleton.
      - intros (d & Hd & H). apply new_dirs_length in Hd.
        destruct H as [H|(f & Hf & H)].
        + apply (f_equal length) in H. simpl in H. lia.
        + injection H as -> _. by apply Hx. }
    destruct (make_and_copy_new E (t ++ r) x fs1 Hst1 Hm1 Hfree Hx Hcpus Hmems)
      as (fs2 & tr2 & Hrun2 & Hmk2 & Hst2 & Hm2 & Hframe2).
    exists fs2, (OpStat (t ++ r) :: tr1 ++ OpMkdir (x :: t ++ r) :: tr2).
    split; [|split; [|split]].
    + change ((x :: t) ++ r) with (x :: t ++ r).
      rewrite (ensureParent_parent_missing E x (t ++ r) fs err Herr Hne).
      rewrite Hrun1, Hrun2. reflexivity.
    + change (mkdirs (OpStat (t ++ r) :: tr1 ++ OpMkdir (x :: t ++ r) :: tr2))
        with (mkdirs (tr1 ++ OpMkdir (x :: t ++ r) :: tr2)).
      rewrite mkdirs_app, Hmk1.
      change (mkdirs (OpMkdir (x :: t ++ r) :: tr2)) with ((x :: t ++ r) :: mkdirs tr2).
      rewrite Hmk2. reflexivity.
    + intros d Hd. simpl in Hd. rewrite app_comm_cons in Hd.
      apply elem_of_app in Hd as [Hd|Hd].
      * apply (step_preserves (kernel_files E) fs1 fs2 x (t ++ r) d); auto.
        apply elem_of_cons in Hd as [->|Hd].
        -- rewrite length_app. lia.
        -- apply new_dirs_length in Hd. lia.
      * apply list_elem_of_singleton in Hd as ->. auto.
    + intros q Hq. simpl in Hq. rewrite touched_app in Hq.
      rewrite Hframe2 by tauto. apply Hframe1. tauto.
Qed.

(** C4. For a target below a root directory that exists with both masks
    set, where none of the directories between the root and the target
    exists yet: [ensureParent] succeeds; it creates these directories and
    the target from the one next to the root down to the target;
    afterwards each of them exists with both masks set; and a second run,
    which finds the target in place, succeeds as well and creates
    nothing.  The kernel puts the two mask files into a new directory, and
    no directory is named like a file the kernel creates. *)
Theorem ensureParent_builds_chain E (r t : path) fs :
  t <> [] ->
  stat fs r = Ok Directory ->
  masks_set fs r ->
  (forall d, d ∈ new_dirs t r -> fs !! d = None) ->
  (forall x, x ∈ t -> x ∉ (kernel_files E).*1) ->
  "cpuset.cpus" ∈ (kernel_files E).*1 ->
  "cpuset.mems" ∈ (kernel_files E).*1 ->
  exists fs' tr,
    ensureParent E (t ++ r) fs = (Ok tt, fs', tr) /\
    mkdirs tr = new_dirs t r /\
    (forall d, d ∈ r :: new_dirs t r -> stat fs' d = Ok Directory /\ masks_set fs' d) /\
    (exists tr', ensureParent E (t ++ r) fs' = (Ok tt, fs', tr') /\ mkdirs tr' = []).
Proof.
  intros Ht Hr Hmr Hnone Hnames Hcpus Hmems.
  destruct (ensureParent_chain E r Hcpus Hmems t fs Ht Hr Hmr Hnone Hnames)
    as (fs' & tr & Hrun & Hmk & Hgood & _).
  exists fs', tr. split; [exact Hrun|]. split; [exact Hmk|]. split; [exact Hgood|].
  destruct t as [|x t]; [done|].
  assert (Htarget : (x :: t) ++ r ∈ r :: new_dirs (x :: t) r).
  { right. by apply new_dirs_parent. }
  assert (Hparent' : t ++ r ∈ r :: new_dirs (x :: t) r).
  { destruct (decide (t = [])) as [->|Ht']; [by left|].
    right. simpl. apply elem_of_app. left. by apply new_dirs_parent. }
  destruct (Hgood _ Htarget) as [Hst Hm]. destruct (Hgood _ Hparent') as [Hstp Hmp].
  exists (OpStat (t ++ r) :: mask_reads (x :: t ++ r) (t ++ r)). split; [|reflexivity].
  change ((x :: t) ++ r) with (x :: t ++ r) in *.
  rewrite (ensureParent_parent_exists E (x :: t ++ r) fs' Directory Hstp).
  rewrite (make_and_copy_again E (t ++ r) x fs' Hst Hm Hmp). reflexivity.
Qed.

(** The workload directory [/sys/fs/cgroup/cpuset/docker/c1] below the
    cpuset root, which alone exists. *)
Lemma ensureParent_builds_chain_witness :
  let r := "cpuset" :: sys_fs_cgroup in
  let t := ["c1"; "docker"] in
  exists fs' tr,
    ensureParent demo_env (t ++ r) demo_fs = (Ok tt, fs', tr) /\
    mkdirs tr = new_dirs t r /\
    (forall d, d ∈ r :: new_dirs t r -> stat fs' d = Ok Directory /\ masks_set fs' d) /\
    (exists tr', ensureParent demo_env (t ++ r) fs' = (Ok tt, fs', tr') /\ mkdirs tr' = []).
Proof.
  intros r t.
  apply (ensureParent_builds_chain demo_env r t demo_fs).
  - discriminate.
  - vm_compute. reflexivity.
  - exists (nl "0-3"), (nl "0"). repeat split; vm_compute; reflexivity.
  - intros d Hd. cbn [new_dirs app t] in Hd.
    apply elem_of_cons in Hd as [->|Hd]; [vm_compute; reflexivity|].
    apply list_elem_of_singleton in Hd as ->. vm_compute. reflexivity.
  - intros x Hx. unfold t in Hx.
    apply elem_of_cons in Hx as [->|Hx];
      [|apply list_elem_of_singleton in Hx as ->];
      apply (bool_decide_unpack _); vm_compute; exact I.
  - apply (bool_decide_unpack _). vm_compute. exact I.
  - apply (bool_decide_unpack _). vm_compute. exact I.
Defined.

(** ** The order of the writes in SetDir *)

Lemma MkdirAll_eq files (p : path) fs :
  os.MkdirAll files p fs
  = match stat fs p with
    | Ok Directory => (Ok tt, fs, [])
    | Ok (File _) => (Err (PathError "mkdir" p ENOTDIR), fs, [])
    | Err _ =>
        match p with
        | [] => (Ok tt, fs, [])
        | _ :: parent =>
            match os.MkdirAll files parent fs with
            | (Ok _, fs1, t1) =>
                match mkdir files p fs1 with
                | Ok fs2 => (Ok tt, fs2, t1 ++ [OpMkdir p])
                | Err e =>
                    match stat fs1 p with
                    | Ok Directory => (Ok tt, fs1, t1)
                    | _ => (Err e, fs1, t1)
                    end
                end
            | (Err e, fs1, t1) => (Err e, fs1, t1)
            end
        end
    end.
Proof. destruct p; reflexivity. Qed.

Lemma writeFile_trace dir file data fs :
  trace (writeFile dir file data fs) = [OpWrite (filepath.Join dir file) data].
Proof.
  unfold writeFile, ioutil.WriteFile, trace.
  destruct (filepath.Join dir file) as [|x d]; [reflexivity|].
  destruct (stat fs d) as [[|data']|e]; try reflexivity.
  destruct (fs !! (x :: d)) as [[|data']|]; reflexivity.
Qed.

Lemma MkdirAll_no_write files (p : path) fs q v :
  OpWrite q v ∉ trace (os.MkdirAll files p fs).
Proof.
  revert fs. induction p as [|x p IH]; intros fs; rewrite MkdirAll_eq.
  - destruct (stat fs []) as [[|data]|e]; unfold trace; simpl; apply not_elem_of_nil.
  - destruct (stat fs (x :: p)) as [[|data]|e]; unfold trace; cbn [snd];
      try apply not_elem_of_nil.
    specialize (IH fs). unfold trace in IH.
    destruct (os.MkdirAll files p fs) as [[[[]|e'] fs1] t1]; cbn [snd] in *; [|exact IH].
    destruct (mkdir files (x :: p) fs1) as [fs2|e2]; cbn [snd].
    + intros H. apply elem_of_app in H as [H|H]; [by apply IH|].
      apply list_elem_of_singleton in H. discriminate H.
    + destruct (stat fs1 (x :: p)) as [[|data]|e3]; exact IH.
Qed.

Lemma copyIfNeeded_writes current parent fs :
  writes_only ["cpuset.cpus"; "cpuset.mems"] (trace (copyIfNeeded current parent fs)).
Proof.
  intros p v H.
  destruct (copyIfNeeded_cases current parent fs)
    as [(cc & cm & pc & pm & _ & _ & _ & _ & Hrun)|(e & k & Hrun)];
    rewrite Hrun in H; unfold trace in H; cbn [snd] in H.
  - apply elem_of_app in H as [H|H].
    { exfalso. by apply (mask_reads_no_write current parent 4 p v). }
    apply elem_of_app in H as [H|H]; apply copy_write_elem in H as (-> & _ & _).
    + exists "cpuset.cpus", current. split; [reflexivity | repeat constructor].
    + exists "cpuset.mems", current. split; [reflexivity | repeat constructor].
  - exfalso. by apply (mask_reads_no_write current parent k p v).
Qed.

Lemma make_and_copy_writes E current fs :
  writes_only ["cpuset.cpus"; "cpuset.mems"] (trace (make_and_copy E current fs)).
Proof.
  intros p v. unfold make_and_copy, bind, attempt, fail, ret.
  pose proof (MkdirAll_no_write (kernel_files E) current fs p v) as Hmk.
  unfold trace in *.
  destruct (os.MkdirAll (kernel_files E) current fs) as [[mk fs1] t1]; cbn [snd] in *.
  pose proof (copyIfNeeded_writes current (filepath.Dir current) fs1 p v) as Hcp.
  unfold trace in Hcp.
  destruct mk as [[]|err]; [|destruct (os.IsExist err)]; cbn [negb snd].
  all: destruct (copyIfNeeded current (filepath.Dir current) fs1) as [[r fs2] t2];
    cbn [snd] in *.
  all: rewrite ?app_nil_r; simpl; intros H.
  all: try (apply elem_of_app in H as [H|H]; [by apply Hmk in H | by apply Hcp]).
  by apply Hmk in H.
Qed.

(** The bootstrapping of the ancestors writes mask files only. *)
Lemma ensureParent_writes E current fs :
  writes_only ["cpuset.cpus"; "cpuset.mems"] (trace (ensureParent E current fs)).
Proof.
  revert fs. induction current as [|x parent IH]; intros fs p v.
  - rewrite (ensureParent_parent_exists E [] fs Directory eq_refl).
    pose proof (make_and_copy_writes E [] fs p v) as H. unfold trace in *.
    destruct (make_and_copy E [] fs) as [[r fs'] t]. cbn [snd] in *.
    intros Hin. apply elem_of_cons in Hin as [Hin|Hin]; [discriminate Hin | auto].
  - destruct (stat fs parent) as [n|err] eqn:Hst.
    + rewrite (ensureParent_parent_exists E (x :: parent) fs n Hst).
      pose proof (make_and_copy_writes E (x :: parent) fs p v) as H. unfold trace in *.
      destruct (make_and_copy E (x :: parent) fs) as [[r fs'] t]. cbn [snd] in *.
      intros Hin. apply elem_of_cons in Hin as [Hin|Hin]; [discriminate Hin | auto].
    + destruct (os.IsNotExist err) eqn:Hne.
      * rewrite (ensureParent_parent_missing E x parent fs err Hst Hne).
        specialize (IH fs p v). unfold trace in *.
        destruct (ensureParent E parent fs) as [[[[]|e] fs1] t1]; cbn [snd] in *.
        -- pose proof (make_and_copy_writes E (x :: parent) fs1 p v) as H.
           unfold trace in H.
           destruct (make_and_copy E (x :: parent) fs1) as [[r fs2] t2]. cbn [snd] in *.
           intros Hin. apply elem_of_cons in Hin as [Hin|Hin]; [discriminate Hin|].
           apply elem_of_app in Hin as [Hin|Hin]; auto.
        -- intros Hin. apply elem_of_cons in Hin as [Hin|Hin]; [discriminate Hin | auto].
      * rewrite (ensureParent_stat_error E (x :: parent) fs err Hst Hne).
        unfold trace. cbn [snd]. intros Hin.
        apply list_elem_of_singleton in Hin. discriminate Hin.
Qed.

(** C6. The trace of [SetDir] is the trace of [ensureParent], then the
    write of the pid to [cgroup.procs], then the write of the requested
    mask to [cpuset.cpus].  [ensureParent] itself writes mask files only;
    when it fails, nothing is written after it; and the mask is written
    only after the write of the pid succeeded. *)
Theorem SetDir_write_order E (dir : path) value pid fs :
  let boot := ensureParent E dir fs in
  let r := SetDir E dir value pid fs in
  let procs := OpWrite ("cgroup.procs" :: dir) (strconv.Itoa pid) in
  let mask := OpWrite ("cpuset.cpus" :: dir) value in
  writes_only ["cpuset.cpus"; "cpuset.mems"] (trace boot) /\
  match outcome boot with
  | Err err => r = (Err err, final boot, trace boot)
  | Ok _ =>
      match outcome (writeFile dir "cgroup.procs" (strconv.Itoa pid) (final boot)) with
      | Err err =>
          outcome r = Err err /\ trace r = trace boot ++ [procs]
      | Ok _ =>
          trace r = trace boot ++ [procs; mask]
      end
  end.
Proof.
  intros boot r procs mask. subst boot r procs mask.
  split; [apply ensureParent_writes|].
  unfold SetDir, bind, outcome, final, trace.
  destruct (ensureParent E dir fs) as [[[[]|err] fs1] t1]; cbn [fst snd]; [|reflexivity].
  pose proof (writeFile_trace dir "cgroup.procs" (strconv.Itoa pid) fs1) as H1.
  unfold trace in H1.
  destruct (writeFile dir "cgroup.procs" (strconv.Itoa pid) fs1) as [[[[]|err] fs2] t2];
    cbn [fst snd] in *; subst t2; [|split; reflexivity].
  pose proof (writeFile_trace dir "cpuset.cpus" value fs2) as H2.
  unfold trace in H2.
  destruct (writeFile dir "cpuset.cpus" value fs2) as [[o fs3] t3];
    cbn [fst snd] in *; subst t3. reflexivity.
Qed.


(** * Further properties of the code *)

(** ** findGroup and getPath *)

Lemma findGroup_Ok_inv order subsystem group :
  findGroup order subsystem = Ok group ->
  exists files, (group, files) ∈ order /\ subsystem ∈ files.
Proof.
  induction order as [|[g files] order IH]; simpl; [discriminate|].
  destruct (existsb (String.eqb subsystem) files) eqn:Hex.
  - intros [= ->]. exists files. split; [by left | by apply existsb_eqb_elem_of].
  - intros H. destruct (IH H) as (files' & Hin & Hs). exists files'. split; [by right | done].
Qed.

Lemma findGroup_listed order subsystem :
  (exists group files, (group, files) ∈ order /\ subsystem ∈ files) ->
  exists group, findGroup order subsystem = Ok group.
Proof.
  induction order as [|[g files] order IH]; intros (group & files' & Hin & Hs); simpl.
  - by apply elem_of_nil in Hin.
  - destruct (existsb (String.eqb subsystem) files) eqn:Hex; [by exists g|].
    apply IH. apply elem_of_cons in Hin as [[= -> ->]|Hin].
    + apply existsb_eqb_elem_of in Hs. congruence.
    + by exists group, files'.
Qed.

(** No file name of the allow-list stands under two groups. *)
Lemma AccessaibleSubsystems_one_group group1 files1 group2 files2 subsystem :
  (group1, files1) ∈ AccessaibleSubsystems ->
  (group2, files2) ∈ AccessaibleSubsystems ->
  subsystem ∈ files1 -> subsystem ∈ files2 ->
  group1 = group2.
Proof.
  intros H1 H2 Hs1 Hs2.
  apply list_elem_of_In in H1, H2. apply existsb_eqb_elem_of in Hs1, Hs2.
  simpl in H1, H2.
  destruct H1 as [H1|[H1|[H1|[H1|[]]]]]; injection H1 as <- <-;
    destruct H2 as [H2|[H2|[H2|[H2|[]]]]]; injection H2 as <- <-;
    try reflexivity; exfalso; simpl in Hs1, Hs2;
    repeat match goal with
    | H : (_ || _)%bool = true |- _ => apply orb_prop in H as [H|H]
    | H : String.eqb _ _ = true |- _ => apply String.eqb_eq in H; subst
    | H : false = true |- _ => discriminate H
    end; discriminate.
Qed.

Lemma findGroup_listed_group order subsystem group files :
  order ≡ₚ AccessaibleSubsystems ->
  (group, files) ∈ AccessaibleSubsystems ->
  subsystem ∈ files ->
  findGroup order subsystem = Ok group.
Proof.
  intros Hperm Hin Hs.
  destruct (findGroup_listed order subsystem) as [g Hg].
  { exists group, files. by rewrite Hperm. }
  destruct (findGroup_Ok_inv _ _ _ Hg) as (files' & Hin' & Hs').
  rewrite Hperm in Hin'.
  by rewrite Hg, (AccessaibleSubsystems_one_group _ _ _ _ _ Hin' Hin Hs' Hs).
Qed.

(** X1. The group that [findGroup] returns for a file name of the
    allow-list does not depend on the order in which the [range] yields the
    entries of the map: it is the one group that lists the name. *)
Theorem findGroup_any_range_order order subsystem group files :
  range_order AccessaibleSubsystems order ->
  (group, files) ∈ AccessaibleSubsystems ->
  subsystem ∈ files ->
  findGroup order subsystem = Ok group.
Proof.
  intros Hperm Hin Hs. unfold range_order in Hperm.
  destruct (findGroup_listed order subsystem) as [g Hg].
  { exists group, files. split; [by rewrite Hperm | done]. }
  rewrite Hg. f_equal.
  apply findGroup_Ok_inv in Hg as (files' & Hin' & Hs').
  rewrite Hperm in Hin'.
  exact (AccessaibleSubsystems_one_group _ _ _ _ _ Hin' Hin Hs' Hs).
Qed.

Lemma findGroup_any_range_order_witness :
  findGroup (rev AccessaibleSubsystems) "memory.limit_in_bytes" = Ok "memory".
Proof.
  apply (findGroup_any_range_order (rev AccessaibleSubsystems) "memory.limit_in_bytes"
           "memory" ["memory.limit_in_bytes"; "memory.soft_limit_in_bytes";
                     "memory.memsw.limit_in_bytes"]).
  - unfold range_order. symmetry. apply Permutation_rev.
  - apply (bool_decide_unpack _). vm_compute. exact I.
  - apply (bool_decide_unpack _). vm_compute. exact I.
Defined.

(** The run of [getPath] once the group is known. *)
Lemma getPath_run E order id driver subsystem fs m group initPath :
  FindCgroupMountpoint E "cpu" = Ok m ->
  is_ok (stat fs (filepath.Dir m)) = true ->
  findGroup order subsystem = Ok group ->
  GetInitCgroupDir E group = Ok initPath ->
  getPath E order id driver subsystem fs
  = (if is_ok (stat fs (control_file m group initPath driver id subsystem))
     then Ok (control_file m group initPath driver id subsystem)
     else Err (Errorf (filepath.to_string
                         (control_file m group initPath driver id subsystem)
                       +:+ " not found")),
     fs,
     [OpMountpoint "cpu"; OpStat (filepath.Dir m); OpInitCgroupDir group;
      OpStat (control_file m group initPath driver id subsystem)]).
Proof.
  intros Hm Hroot Hg Hinit.
  unfold getPath, bind, lift, attempt, fail, ret, os.Stat,
    cgroups.FindCgroupMountpoint, cgroups.GetInitCgroupDir.
  rewrite Hm.
  destruct (stat fs (filepath.Dir m)) as [n|e]; [|discriminate Hroot].
  rewrite Hg, Hinit. fold (control_file m group initPath driver id subsystem).
  destruct (stat fs (control_file m group initPath driver id subsystem)); reflexivity.
Qed.

(** X2. For a file name of the allow-list, on a mounted hierarchy,
    [getPath] returns the cleaned join of the hierarchy root, the group,
    the init directory, the driver, the id and the file name when
    something exists there, and otherwise fails with "<path> not found",
    whatever the range order was.  Either way it looks up the mount point
    and the init directory and performs two [Stat] calls, and nothing
    else. *)
Theorem getPath_of_listed_file E order id driver subsystem fs m group files initPath :
  range_order AccessaibleSubsystems order ->
  (group, files) ∈ AccessaibleSubsystems ->
  subsystem ∈ files ->
  FindCgroupMountpoint E "cpu" = Ok m ->
  is_ok (stat fs (filepath.Dir m)) = true ->
  GetInitCgroupDir E group = Ok initPath ->
  let p := control_file m group initPath driver id subsystem in
  getPath E order id driver subsystem fs
  = (if is_ok (stat fs p) then Ok p
     else Err (Errorf (filepath.to_string p +:+ " not found")),
     fs,
     [OpMountpoint "cpu"; OpStat (filepath.Dir m); OpInitCgroupDir group; OpStat p]).
Proof.
  intros Hperm Hin Hs Hm Hroot Hinit p. subst p.
  apply (getPath_run E order id driver subsystem fs m group initPath); try assumption.
  by apply (findGroup_listed_group order subsystem group files).
Qed.

(** An id that steps out of the directory of the driver is resolved by the
    join: the path examined is the one the cleaned join names. *)
Lemma getPath_of_listed_file_witness :
  getPath demo_env AccessaibleSubsystems "c1" "docker" "cpu.shares" demo_fs
  = (Err (Errorf "/sys/fs/cgroup/cpu/docker/c1/cpu.shares not found"), demo_fs,
     [OpMountpoint "cpu"; OpStat sys_fs_cgroup; OpInitCgroupDir "cpu";
      OpStat ["cpu.shares"; "c1"; "docker"; "cpu"; "cgroup"; "fs"; "sys"]]) /\
  getPath demo_env AccessaibleSubsystems "../../memory/x" "docker" "cpu.shares" demo_fs
  = (Err (Errorf "/sys/fs/cgroup/memory/x/cpu.shares not found"), demo_fs,
     [OpMountpoint "cpu"; OpStat sys_fs_cgroup; OpInitCgroupDir "cpu";
      OpStat ["cpu.shares"; "x"; "memory"; "cgroup"; "fs"; "sys"]]).
Proof.
  split.
  - apply (getPath_of_listed_file demo_env AccessaibleSubsystems "c1" "docker" "cpu.shares"
             demo_fs ("cpu" :: sys_fs_cgroup) "cpu"
             ["cpu.shares"; "cpu.cfs_period_us"; "cpu.cfs_quota_us"] "/").
    + apply Permutation_refl.
    + apply (bool_decide_unpack _). vm_compute. exact I.
    + apply (bool_decide_unpack _). vm_compute. exact I.
    + reflexivity.
    + vm_compute. reflexivity.
    + reflexivity.
  - apply (getPath_of_listed_file demo_env AccessaibleSubsystems "../../memory/x" "docker"
             "cpu.shares" demo_fs ("cpu" :: sys_fs_cgroup) "cpu"
             ["cpu.shares"; "cpu.cfs_period_us"; "cpu.cfs_quota_us"] "/").
    + apply Permutation_refl.
    + apply (bool_decide_unpack _). vm_compute. exact I.
    + apply (bool_decide_unpack _). vm_compute. exact I.
    + reflexivity.
    + vm_compute. reflexivity.
    + reflexivity.
Defined.

Lemma getPath_final E order id driver subsystem fs :
  final (getPath E order id driver subsystem fs) = fs.
Proof.
  unfold getPath, bind, lift, attempt, fail, ret, os.Stat, final,
    cgroups.FindCgroupMountpoint, cgroups.GetInitCgroupDir.
  destruct (FindCgroupMountpoint E "cpu") as [m|e]; [|reflexivity].
  destruct (stat fs (filepath.Dir m)) as [n|e]; [|reflexivity].
  destruct (findGroup order subsystem) as [group|e]; [|reflexivity].
  destruct (GetInitCgroupDir E group) as [initPath|e]; [|reflexivity].
  match goal with |- context [stat fs ?p] => destruct (stat fs p) end; reflexivity.
Qed.

Lemma getPath_looks E order id driver subsystem fs :
  Forall (fun o => is_lookup o = true) (trace (getPath E order id driver subsystem fs)) /\
  (length (trace (getPath E order id driver subsystem fs)) <= 4)%nat.
Proof.
  unfold getPath, bind, lift, attempt, fail, ret, os.Stat, trace,
    cgroups.FindCgroupMountpoint, cgroups.GetInitCgroupDir.
  destruct (FindCgroupMountpoint E "cpu") as [m|e]; cbn [fst snd];
    [|split; [repeat constructor | simpl; lia]].
  destruct (stat fs (filepath.Dir m)) as [n|e]; cbn [fst snd];
    [|split; [repeat constructor | simpl; lia]].
  destruct (findGroup order subsystem) as [group|e]; cbn [fst snd];
    [|split; [repeat constructor | simpl; lia]].
  destruct (GetInitCgroupDir E group) as [initPath|e]; cbn [fst snd];
    [|split; [repeat constructor | simpl; lia]].
  match goal with |- context [stat fs ?p] => destruct (stat fs p) end; cbn [fst snd];
    (split; [repeat constructor | simpl; lia]).
Qed.

Lemma getPath_no_write E order id driver subsystem fs q v :
  OpWrite q v ∉ trace (getPath E order id driver subsystem fs).
Proof.
  intros Hin. destruct (getPath_looks E order id driver subsystem fs) as [Hall _].
  rewrite Forall_forall in Hall. specialize (Hall _ Hin). discriminate Hall.
Qed.


(** ** Get and Set *)

Lemma WriteFile_Ok_inv (p : path) data fs fs' t :
  ioutil.WriteFile p data fs = (Ok tt, fs', t) ->
  exists x dir, p = x :: dir /\ stat fs dir = Ok Directory /\
                fs' = <[ p := File data ]> fs.
Proof.
  unfold ioutil.WriteFile. destruct p as [|x dir]; [discriminate|].
  destruct (stat fs dir) as [[|d]|e] eqn:Hd; try discriminate.
  destruct (fs !! (x :: dir)) as [[|d]|]; try discriminate;
    intros [= <- _]; exists x, dir; auto.
Qed.

Lemma WriteFile_trace (p : path) data fs :
  trace (ioutil.WriteFile p data fs) = [OpWrite p data].
Proof.
  unfold ioutil.WriteFile, trace. destruct p as [|x dir]; [reflexivity|].
  destruct (stat fs dir) as [[|d]|e]; try reflexivity.
  destruct (fs !! (x :: dir)) as [[|d]|]; reflexivity.
Qed.

Lemma TrimSuffix_nl v : strings_.TrimSuffix (nl v) newline = v.
Proof.
  unfold nl. induction v as [|x v IH]; simpl.
  - destruct (decide (newline = newline)) as [_|Hne]; [reflexivity | by destruct Hne].
  - destruct (v +:+ String newline "") as [|y w] eqn:Hv.
    + destruct v; discriminate Hv.
    + f_equal. exact IH.
Qed.

(** X4. [Get] returns the content of the file that [getPath] resolved,
    less exactly one trailing newline: for a file that holds a value
    followed by a newline it returns the value, as it stands, and it leaves
    the filesystem as it is; its accesses are those of [getPath] and the
    one read. *)
Theorem Get_strips_one_newline E order id driver subsystem fs p v :
  outcome (getPath E order id driver subsystem fs) = Ok p ->
  stat fs p = Ok (File (nl v)) ->
  fs_Get E order id driver subsystem fs
  = (Ok v, fs, trace (getPath E order id driver subsystem fs) ++ [OpRead p]).
Proof.
  intros Hget Hst.
  pose proof (getPath_final E order id driver subsystem fs) as Hfs.
  unfold fs_Get, bind, outcome, final, trace in *.
  destruct (getPath E order id driver subsystem fs) as [[o fs1] t1]; cbn [fst snd] in *.
  subst o fs1. rewrite ReadFile_run.
  assert (Hread : read fs p = Ok (nl v)) by (by apply read_Ok).
  rewrite Hread. unfold ret. rewrite TrimSuffix_nl. reflexivity.
Qed.

(** The shares file of a workload that has joined the cpu controller, as
    the kernel shows it, and a file that ends in two newlines. *)
Lemma Get_strips_one_newline_witness :
  let shares := "cpu.shares" :: workload "cpu" in
  let fs v := <[ shares := File v ]>
              (<[ tail shares := Directory ]>
              (<[ tail (tail shares) := Directory ]> demo_fs)) in
  outcome (fs_Get demo_env AccessaibleSubsystems "c1" "docker" "cpu.shares" (fs (nl "1024")))
  = Ok "1024" /\
  outcome (fs_Get demo_env AccessaibleSubsystems "c1" "docker" "cpu.shares"
             (fs (nl (nl "1024"))))
  = Ok (nl "1024").
Proof.
  intros shares fs. split.
  - assert (Hp : outcome (getPath demo_env AccessaibleSubsystems "c1" "docker" "cpu.shares"
                            (fs (nl "1024"))) = Ok shares) by (vm_compute; reflexivity).
    assert (Hst : stat (fs (nl "1024")) shares = Ok (File (nl "1024")))
      by (vm_compute; reflexivity).
    by rewrite (Get_strips_one_newline demo_env AccessaibleSubsystems "c1" "docker"
                  "cpu.shares" (fs (nl "1024")) shares "1024" Hp Hst).
  - assert (Hp : outcome (getPath demo_env AccessaibleSubsystems "c1" "docker" "cpu.shares"
                            (fs (nl (nl "1024")))) = Ok shares) by (vm_compute; reflexivity).
    assert (Hst : stat (fs (nl (nl "1024"))) shares = Ok (File (nl (nl "1024"))))
      by (vm_compute; reflexivity).
    by rewrite (Get_strips_one_newline demo_env AccessaibleSubsystems "c1" "docker"
                  "cpu.shares" (fs (nl (nl "1024"))) shares (nl "1024") Hp Hst).
Defined.

(** X5. [Get] leaves the filesystem as it is and writes nothing.  [Set]
    changes nothing but the file that [getPath] resolved: every other path
    holds afterwards what it held before, whether the call succeeds or
    fails, and the one write it can make is that of the given value to the
    resolved path; where [getPath] fails it writes nothing. *)
Theorem Get_Set_frame E order id driver subsystem value fs :
  final (fs_Get E order id driver subsystem fs) = fs /\
  (forall q : path,
     outcome (getPath E order id driver subsystem fs) <> Ok q ->
     final (fs_Set E order id driver subsystem value fs) !! q = fs !! q) /\
  (forall (q : path) v, OpWrite q v ∉ trace (fs_Get E order id driver subsystem fs)) /\
  (forall (q : path) v,
     OpWrite q v ∈ trace (fs_Set E order id driver subsystem value fs) ->
     outcome (getPath E order id driver subsystem fs) = Ok q /\ v = value).
Proof.
  pose proof (getPath_final E order id driver subsystem fs) as Hfs.
  pose proof (getPath_no_write E order id driver subsystem fs) as Hnw.
  unfold fs_Get, fs_Set, bind, final, outcome, trace in *.
  destruct (getPath E order id driver subsystem fs) as [[[p|e] fs1] t1];
    cbn [fst snd] in *; subst fs1.
  2: { split; [reflexivity|]. split; [auto|]. split; [exact Hnw|].
       intros q v Hin. by destruct (Hnw q v). }
  split; [|split; [|split]].
  - rewrite ReadFile_run. destruct (read fs p); reflexivity.
  - intros q Hq.
    destruct (ioutil.WriteFile p value fs) as [[[[]|e] fs2] t2] eqn:Hw; cbn [fst snd].
    + apply WriteFile_Ok_inv in Hw as (x & dir & _ & _ & ->).
      apply lookup_insert_ne. congruence.
    + unfold ioutil.WriteFile in Hw. destruct p as [|x dir]; [congruence|].
      destruct (stat fs dir) as [[|d]|e']; try congruence.
      destruct (fs !! (x :: dir)) as [[|d]|]; congruence.
  - intros q v. rewrite ReadFile_run.
    destruct (read fs p); cbn [fst snd]; intros Hin;
      apply elem_of_app in Hin as [Hin|Hin]; try (by destruct (Hnw q v));
      apply list_elem_of_singleton in Hin; discriminate Hin.
  - intros q v.
    pose proof (WriteFile_trace p value fs) as Ht. unfold trace in Ht.
    destruct (ioutil.WriteFile p value fs) as [[r fs2] t2]; cbn [fst snd] in *.
    subst t2. intros Hin. apply elem_of_app in Hin as [Hin|Hin]; [by destruct (Hnw q v)|].
    apply list_elem_of_singleton in Hin. injection Hin as -> ->. auto.
Qed.

(** ** What a statistics call does to the filesystem *)

(** X6. Where the controllers read their statistics without writing, a
    [GetAllStats] call that succeeds has changed the filesystem exactly as
    a [SetResources] call over the same controllers in the same order
    does, and that call succeeds too: collecting statistics is not a
    read-only operation. *)
Theorem GetAllStats_changes_like_SetResources E order cg pid fs :
  (forall name sys, (name, sys) ∈ order ->
     forall p stats fs', final (GetStats sys p stats fs') = fs') ->
  is_ok (outcome (GetAllStats E order cg pid fs)) = true ->
  is_ok (outcome (SetResources E order cg pid fs)) = true /\
  final (SetResources E order cg pid fs) = final (GetAllStats E order cg pid fs).
Proof.
  intros Hro. unfold GetAllStats, SetResources, bind, lift, ret.
  destruct (getCgroupData E cg pid) as [d|e]; [|discriminate].
  intros Hok.
  destruct (stats_each_effect E d order Hro [] fs) as [H1 H2].
  { unfold outcome in *. destruct (stats_each E d order [] fs) as [[o fs1] t1]. exact Hok. }
  unfold outcome, final in *.
  destruct (stats_each E d order [] fs) as [[o fs1] t1].
  destruct (apply_each d order fs) as [[[[]|e] fs2] t2]; cbn [fst snd] in *;
    [auto | discriminate].
Qed.

(** The statistics of a fresh workload: the call creates its directories
    in the memory and cpu hierarchies. *)
Lemma GetAllStats_changes_like_SetResources_witness :
  let order := [("memory", demo_memory); ("blkio", demo_blkio); ("cpu", demo_cpu)] in
  let cg := demo_cgroup 1048576 512 "" in
  final (SetResources demo_env order cg 4217 demo_fs)
  = final (GetAllStats demo_env order cg 4217 demo_fs) /\
  final (GetAllStats demo_env order cg 4217 demo_fs)
    !! ["c1"; "docker"; "memory"; "cgroup"; "fs"; "sys"] = Some Directory /\
  demo_fs !! ["c1"; "docker"; "memory"; "cgroup"; "fs"; "sys"] = None.
Proof.
  intros order cg. split; [|split; vm_compute; reflexivity].
  refine (proj2 (GetAllStats_changes_like_SetResources demo_env order cg 4217%Z demo_fs _ _)).
  - intros name sys Hin p stats fs'. unfold order in Hin.
    apply elem_of_cons in Hin as [[= -> ->]|Hin]; [apply demo_stats_reads_only|].
    apply elem_of_cons in Hin as [[= -> ->]|Hin]; [reflexivity|].
    apply list_elem_of_singleton in Hin as [= -> ->]. apply demo_stats_reads_only.
  - vm_compute. reflexivity.
Defined.

(** ** Empty masks *)

Lemma TrimLeft_empty_iff b ch :
  bytes.TrimLeft b ch = EmptyString <-> (forall x, In x (String.list_ascii_of_string b) -> x = ch).
Proof.
  induction b as [|y b IH]; simpl.
  - split; [intros _ x [] | reflexivity].
  - destruct (decide (y = ch)) as [->|Hne].
    + rewrite IH. split.
      * intros H x [<-|Hx]; [reflexivity | by apply H].
      * intros H x Hx. apply H. by right.
    + split; [discriminate|]. intros H. exfalso. apply Hne. apply H. by left.
Qed.

Lemma TrimLeft_head b ch x r : bytes.TrimLeft b ch = String x r -> x <> ch.
Proof.
  induction b as [|y b IH]; simpl; [discriminate|].
  destruct (decide (y = ch)) as [->|Hne]; [exact IH|]. by intros [= <- _].
Qed.

Lemma TrimRight_head x r ch : x <> ch -> bytes.TrimRight (String x r) ch <> EmptyString.
Proof.
  intros Hne. simpl. destruct (bytes.TrimRight r ch); [|discriminate].
  destruct (decide (x = ch)); [done | discriminate].
Qed.

(** X7. [isEmpty] holds exactly for the contents that consist of newline
    characters only, the content of length zero among them. *)
Theorem isEmpty_iff_only_newlines b :
  isEmpty b = true <-> (forall x, In x (String.list_ascii_of_string b) -> x = newline).
Proof.
  rewrite isEmpty_length, <- TrimLeft_empty_iff. unfold bytes.Trim.
  destruct (bytes.TrimLeft b newline) as [|x r] eqn:Hl.
  - simpl. split; reflexivity.
  - apply TrimLeft_head in Hl. apply (TrimRight_head x r) in Hl.
    split; [|discriminate].
    intros H. destruct (bytes.TrimRight (String x r) newline); [done | discriminate H].
Qed.

(** ** copyIfNeeded *)

Lemma take_mask_reads_no_write current parent k :
  filter (fun o => is_write o = true) (take k (mask_reads current parent)) = [].
Proof. destruct k as [|[|[|[|k]]]]; simpl; rewrite ?take_nil; reflexivity. Qed.

(** X8. When one of the four mask files cannot be read, [copyIfNeeded]
    fails before it writes: the filesystem is as it was. *)
Theorem copyIfNeeded_unreadable_no_write current parent fs (p : path) :
  p ∈ [ "cpuset.cpus" :: current; "cpuset.mems" :: current;
        "cpuset.cpus" :: parent; "cpuset.mems" :: parent ] ->
  is_ok (read fs p) = false ->
  is_ok (outcome (copyIfNeeded current parent fs)) = false /\
  final (copyIfNeeded current parent fs) = fs /\
  filter (fun o => is_write o = true) (trace (copyIfNeeded current parent fs)) = [].
Proof.
  intros Hp Hread.
  destruct (copyIfNeeded_cases current parent fs)
    as [(cc & cm & pc & pm & Hcc & Hcm & Hpc & Hpm & _)|(e & k & ->)].
  - exfalso. apply read_Ok in Hcc, Hcm, Hpc, Hpm.
    repeat (apply elem_of_cons in Hp as [->|Hp];
            [rewrite ?Hcc, ?Hcm, ?Hpc, ?Hpm in Hread; discriminate Hread|]).
    by apply elem_of_nil in Hp.
  - unfold outcome, final, trace. cbn [fst snd].
    repeat split. apply take_mask_reads_no_write.
Qed.

(** A fresh directory on a plain filesystem has no mask files. *)
Lemma copyIfNeeded_unreadable_no_write_witness :
  let current := "docker" :: "cpuset" :: sys_fs_cgroup in
  let fs := <[ current := Directory ]> demo_fs in
  is_ok (outcome (copyIfNeeded current ("cpuset" :: sys_fs_cgroup) fs)) = false /\
  final (copyIfNeeded current ("cpuset" :: sys_fs_cgroup) fs) = fs /\
  filter (fun o => is_write o = true)
    (trace (copyIfNeeded current ("cpuset" :: sys_fs_cgroup) fs)) = [].
Proof.
  intros current fs.
  apply (copyIfNeeded_unreadable_no_write current ("cpuset" :: sys_fs_cgroup) fs
           ("cpuset.mems" :: current)).
  - right. left.
  - vm_compute. reflexivity.
Defined.

(** The content of a file is replaced: every path resolves to the kind
    of node it resolved to before. *)
Lemma stat_insert_file fs (k q : path) old new :
  k <> [] ->
  fs !! k = Some (File old) ->
  stat (<[ k := File new ]> fs) q
  = if decide (q = k)
    then match stat fs k with Ok _ => Ok (File new) | Err e => Err e end
    else stat fs q.
Proof.
  intros Hnil Hk. induction q as [|x d IH].
  - destruct (decide ([] = k)) as [<-|_]; [done | reflexivity].
  - simpl. rewrite IH.
    destruct (decide (x :: d = k)) as [<-|Hne].
    + destruct (decide (d = x :: d)) as [Hd|_].
      { apply (f_equal length) in Hd. simpl in Hd. lia. }
      rewrite lookup_insert_eq.
      simpl. rewrite Hk. destruct (stat fs d) as [[|data]|e]; reflexivity.
    + rewrite lookup_insert_ne by congruence.
      destruct (decide (d = k)) as [->|_]; [|reflexivity].
      destruct (stat fs k) as [[|data]|e] eqn:Hst; try reflexivity.
      destruct k as [|y k']; [done|].
      apply stat_child in Hst as [_ Hst]. congruence.
Qed.

Lemma stat_copy_mask_file file (current q : path) cur par v fs :
  stat fs (file :: current) = Ok (File cur) ->
  stat fs q = Ok (File v) ->
  stat (copy_mask file current cur par fs) q
  = Ok (File (if decide (q = file :: current)
              then (if isEmpty cur then par else cur) else v)).
Proof.
  intros Hk Hq. unfold copy_mask. destruct (isEmpty cur).
  - rewrite (stat_insert_file fs (file :: current) q cur par);
      [| discriminate | by apply stat_child in Hk as [_ ?]].
    destruct (decide (q = file :: current)); [by rewrite Hk | exact Hq].
  - destruct (decide (q = file :: current)) as [->|_]; congruence.
Qed.

(** X9. Below a parent whose masks are set, a successful [copyIfNeeded]
    leaves the current directory with both masks set, and a second call
    succeeds, reads the four files and writes nothing. *)
Theorem copyIfNeeded_idempotent current parent fs fs1 t1 :
  masks_set fs parent ->
  copyIfNeeded current parent fs = (Ok tt, fs1, t1) ->
  masks_set fs1 current /\
  copyIfNeeded current parent fs1 = (Ok tt, fs1, mask_reads current parent).
Proof.
  intros (pc' & pm' & Hpc' & Hpce & Hpm' & Hpme) Hrun.
  destruct (copyIfNeeded_cases current parent fs)
    as [(cc & cm & pc & pm & Hcc & Hcm & Hpc & Hpm & Heq)|(e & k & Heq)];
    rewrite Heq in Hrun; [|discriminate Hrun].
  injection Hrun as <- _.
  assert (pc' = pc) as -> by (apply stat_child in Hpc as [_ ?]; congruence).
  assert (pm' = pm) as -> by (apply stat_child in Hpm as [_ ?]; congruence).
  set (fsA := copy_mask "cpuset.cpus" current cc pc fs).
  set (cc1 := if isEmpty cc then pc else cc).
  set (cm1 := if isEmpty cm then pm else cm).
  assert (Hcc1 : isEmpty cc1 = false) by by apply isEmpty_copied.
  assert (Hcm1 : isEmpty cm1 = false) by by apply isEmpty_copied.
  (* after the copy of the cpus mask *)
  assert (HAcc : stat fsA ("cpuset.cpus" :: current) = Ok (File cc1)).
  { unfold fsA. rewrite (stat_copy_mask_file _ _ _ _ _ cc fs Hcc Hcc).
    destruct (decide _); [reflexivity | done]. }
  assert (HAcm : stat fsA ("cpuset.mems" :: current) = Ok (File cm)).
  { unfold fsA. rewrite (stat_copy_mask_file _ _ _ _ _ cm fs Hcc Hcm).
    destruct (decide _) as [[=]|_]; reflexivity. }
  assert (HApc : exists v, stat fsA ("cpuset.cpus" :: parent) = Ok (File v) /\
                           isEmpty v = false).
  { unfold fsA. rewrite (stat_copy_mask_file _ _ _ _ _ pc fs Hcc Hpc).
    destruct (decide _); eauto. }
  assert (HApm : stat fsA ("cpuset.mems" :: parent) = Ok (File pm)).
  { unfold fsA. rewrite (stat_copy_mask_file _ _ _ _ _ pm fs Hcc Hpm).
    destruct (decide _) as [[=]|_]; reflexivity. }
  destruct HApc as (pcA & HApc & HpcA).
  (* after the copy of the mems mask *)
  set (fsB := copy_mask "cpuset.mems" current cm pm fsA).
  assert (HBcc : stat fsB ("cpuset.cpus" :: current) = Ok (File cc1)).
  { unfold fsB. rewrite (stat_copy_mask_file _ _ _ _ _ cc1 fsA HAcm HAcc).
    destruct (decide _) as [[=]|_]; reflexivity. }
  assert (HBcm : stat fsB ("cpuset.mems" :: current) = Ok (File cm1)).
  { unfold fsB. rewrite (stat_copy_mask_file _ _ _ _ _ cm fsA HAcm HAcm).
    destruct (decide _); [reflexivity | done]. }
  assert (HBpc : stat fsB ("cpuset.cpus" :: parent) = Ok (File pcA)).
  { unfold fsB. rewrite (stat_copy_mask_file _ _ _ _ _ pcA fsA HAcm HApc).
    destruct (decide _) as [[=]|_]; reflexivity. }
  assert (HBpm : exists v, stat fsB ("cpuset.mems" :: parent) = Ok (File v)).
  { unfold fsB. rewrite (stat_copy_mask_file _ _ _ _ _ pm fsA HAcm HApm). eauto. }
  destruct HBpm as (pmB & HBpm).
  split.
  - exists cc1, cm1. apply stat_child in HBcc as [_ ?]. apply stat_child in HBcm as [_ ?].
    auto.
  - rewrite (copyIfNeeded_ok current parent fsB cc1 cm1 pcA pmB HBcc HBcm HBpc HBpm).
    unfold copy_mask, copy_write. rewrite Hcc1, Hcm1. rewrite !app_nil_r. reflexivity.
Qed.

Lemma copyIfNeeded_idempotent_witness :
  let current := "docker" :: "cpuset" :: sys_fs_cgroup in
  let parent := "cpuset" :: sys_fs_cgroup in
  let fs := <[ "cpuset.mems" :: current := File (nl "") ]>
            (<[ "cpuset.cpus" :: current := File (nl "") ]>
            (<[ current := Directory ]> demo_fs)) in
  let r := copyIfNeeded current parent fs in
  masks_set (final r) current /\
  copyIfNeeded current parent (final r) = (Ok tt, final r, mask_reads current parent).
Proof.
  intros current parent fs r.
  assert (H : outcome r = Ok tt) by (vm_compute; reflexivity).
  apply (copyIfNeeded_idempotent current parent fs (final r) (trace r)).
  - exists (nl "0-3"), (nl "0"). repeat split; vm_compute; reflexivity.
  - exact (run_eta r _ H).
Defined.

(** ** ensureParent, one directory at a time *)

Lemma stat_below_file fs (t a : path) data :
  stat fs a = Ok (File data) ->
  t <> [] ->
  stat fs (t ++ a) = Err (PathError "stat" (t ++ a) ENOTDIR).
Proof.
  intros Ha. induction t as [|x t IH]; [done|]. intros _.
  destruct t as [|y t].
  - simpl. rewrite Ha. reflexivity.
  - change (stat fs ((x :: y :: t) ++ a))
      with (match stat fs ((y :: t) ++ a) with
            | Ok Directory =>
                match fs !! ((x :: y :: t) ++ a) with
                | Some n => Ok n
                | None => Err (PathError "stat" ((x :: y :: t) ++ a) ENOENT)
                end
            | Ok (File _) => Err (PathError "stat" ((x :: y :: t) ++ a) ENOTDIR)
            | Err e => Err (path_error "stat" ((x :: y :: t) ++ a) e)
            end).
    rewrite IH by done. reflexivity.
Qed.

(** X10. When an ancestor of the target is a regular file, [ensureParent]
    fails with "not a directory"; it creates no directory, writes nothing
    and leaves the filesystem as it was. *)
Theorem ensureParent_below_file E x (t a : path) data fs :
  stat fs a = Ok (File data) ->
  exists call p tr,
    ensureParent E (x :: t ++ a) fs = (Err (PathError call p ENOTDIR), fs, tr) /\
    mkdirs tr = [] /\
    filter (fun o => is_write o = true) tr = [].
Proof.
  intros Ha. destruct t as [|y t].
  - exists "mkdir", a, [OpStat a]. split; [|split; reflexivity].
    change (x :: [] ++ a) with (x :: a).
    rewrite (ensureParent_parent_exists E (x :: a) fs (File data) Ha).
    unfold make_and_copy, bind, attempt.
    rewrite (MkdirAll_eq _ (x :: a)).
    change (stat fs (x :: a))
      with (match stat fs a with
            | Ok Directory =>
                match fs !! (x :: a) with
                | Some n => Ok n
                | None => Err (PathError "stat" (x :: a) ENOENT)
                end
            | Ok (File _) => Err (PathError "stat" (x :: a) ENOTDIR)
            | Err e => Err (path_error "stat" (x :: a) e)
            end).
    rewrite Ha. rewrite (MkdirAll_eq _ a), Ha. reflexivity.
  - exists "stat", ((y :: t) ++ a), [OpStat ((y :: t) ++ a)].
    split; [|split; reflexivity].
    apply (ensureParent_stat_error E (x :: (y :: t) ++ a) fs); [|reflexivity].
    by apply (stat_below_file fs (y :: t) a data).
Qed.

Lemma ensureParent_below_file_witness :
  let blocked := <[ "docker" :: "cpuset" :: sys_fs_cgroup := File "" ]> demo_fs in
  exists call p tr,
    ensureParent demo_env ("c1" :: [] ++ "docker" :: "cpuset" :: sys_fs_cgroup) blocked
    = (Err (PathError call p ENOTDIR), blocked, tr) /\
    mkdirs tr = [] /\
    filter (fun o => is_write o = true) tr = [].
Proof.
  intros blocked.
  apply (ensureParent_below_file demo_env "c1" [] ("docker" :: "cpuset" :: sys_fs_cgroup) ""
           blocked).
  vm_compute. reflexivity.
Defined.

(** X11. For a directory that exists, [ensureParent] is one [Stat] of the
    parent followed by [copyIfNeeded]: nothing is created, and a mask of
    the directory is replaced by the parent's only where it is empty. *)
Theorem ensureParent_existing_directory E x (parent : path) fs cc cm pc pm :
  stat fs (x :: parent) = Ok Directory ->
  fs !! ("cpuset.cpus" :: x :: parent) = Some (File cc) ->
  fs !! ("cpuset.mems" :: x :: parent) = Some (File cm) ->
  fs !! ("cpuset.cpus" :: parent) = Some (File pc) ->
  fs !! ("cpuset.mems" :: parent) = Some (File pm) ->
  ensureParent E (x :: parent) fs
  = (Ok tt,
     copy_mask "cpuset.mems" (x :: parent) cm pm
       (copy_mask "cpuset.cpus" (x :: parent) cc pc fs),
     OpStat parent
       :: mask_reads (x :: parent) parent
       ++ copy_write "cpuset.cpus" (x :: parent) cc pc
       ++ copy_write "cpuset.mems" (x :: parent) cm pm).
Proof.
  intros Hcur Hcc Hcm Hpc Hpm.
  assert (Hp : stat fs parent = Ok Directory) by by apply stat_child in Hcur as [? _].
  rewrite (ensureParent_parent_exists E (x :: parent) fs Directory Hp).
  rewrite (make_and_copy_run E (x :: parent) fs fs []); [|by apply MkdirAll_exists].
  change (filepath.Dir (x :: parent)) with parent.
  rewrite (copyIfNeeded_ok (x :: parent) parent fs cc cm pc pm);
    try by apply stat_child_intro.
  reflexivity.
Qed.

Lemma ensureParent_existing_directory_witness :
  let parent := "cpuset" :: sys_fs_cgroup in
  let fs := <[ "cpuset.mems" :: "docker" :: parent := File (nl "") ]>
            (<[ "cpuset.cpus" :: "docker" :: parent := File (nl "1") ]>
            (<[ "docker" :: parent := Directory ]> demo_fs)) in
  ensureParent demo_env ("docker" :: parent) fs
  = (Ok tt,
     <[ "cpuset.mems" :: "docker" :: parent := File (nl "0") ]> fs,
     [ OpStat parent;
       OpRead ("cpuset.cpus" :: "docker" :: parent);
       OpRead ("cpuset.mems" :: "docker" :: parent);
       OpRead ("cpuset.cpus" :: parent); OpRead ("cpuset.mems" :: parent);
       OpWrite ("cpuset.mems" :: "docker" :: parent) (nl "0") ]).
Proof.
  intros parent fs.
  apply (ensureParent_existing_directory demo_env "docker" parent fs
           (nl "1") (nl "") (nl "0-3") (nl "0")); vm_compute; reflexivity.
Defined.

Lemma populate_lookup_fresh files (p : path) fs f v :
  fresh files f = Some v -> populate files p fs !! (f :: p) = Some (File v).
Proof.
  induction files as [|[f' v'] files IH]; simpl; [discriminate|].
  destruct (decide (f' = f)) as [->|Hne].
  - intros [= ->]. apply lookup_insert_eq.
  - intros H. rewrite lookup_insert_ne by congruence. by apply IH.
Qed.

Lemma fresh_in_names files f v : fresh files f = Some v -> f ∈ files.*1.
Proof.
  induction files as [|[f' v'] files IH]; simpl; [discriminate|].
  destruct (decide (f' = f)) as [->|Hne]; [by left | right; by apply IH].
Qed.

(** X12. For a directory that does not exist yet, below a parent that
    does, [ensureParent] creates the directory, and each mask of the new
    directory ends as the content the kernel gave it, or, where that is
    empty, as the parent's content, which the code copies without looking
    at it. *)
Theorem ensureParent_new_directory E x (parent : path) fs kc km pc pm :
  stat fs parent = Ok Directory ->
  fs !! (x :: parent) = None ->
  x ∉ (kernel_files E).*1 ->
  fresh (kernel_files E) "cpuset.cpus" = Some kc ->
  fresh (kernel_files E) "cpuset.mems" = Some km ->
  fs !! ("cpuset.cpus" :: parent) = Some (File pc) ->
  fs !! ("cpuset.mems" :: parent) = Some (File pm) ->
  let r := ensureParent E (x :: parent) fs in
  outcome r = Ok tt /\
  mkdirs (trace r) = [x :: parent] /\
  stat (final r) (x :: parent) = Ok Directory /\
  final r !! ("cpuset.cpus" :: x :: parent) = Some (File (if isEmpty kc then pc else kc)) /\
  final r !! ("cpuset.mems" :: x :: parent) = Some (File (if isEmpty km then pm else km)).
Proof.
  intros Hp Hx Hxf Hkc Hkm Hpc Hpm r. subst r.
  set (current := x :: parent).
  set (fs1 := populate (kernel_files E) current (<[ current := Directory ]> fs)).
  assert (Hcur : stat fs1 current = Ok Directory) by by apply stat_mkdir_self.
  assert (Hcc : fs1 !! ("cpuset.cpus" :: current) = Some (File kc))
    by by apply populate_lookup_fresh.
  assert (Hcm : fs1 !! ("cpuset.mems" :: current) = Some (File km))
    by by apply populate_lookup_fresh.
  assert (Hpar : stat fs1 parent = Ok Directory).
  { unfold fs1. rewrite stat_mkdir_other; [exact Hp | apply not_suffix_longer]. }
  assert (Hkeep : forall f, f ∈ (kernel_files E).*1 -> fs1 !! (f :: parent) = fs !! (f :: parent)).
  { intros f Hf. unfold fs1. rewrite populate_lookup_ne.
    - apply lookup_insert_ne. unfold current. intros [= ->]. by apply Hxf.
    - intros f' _ Heq. apply (f_equal length) in Heq. simpl in Heq. lia. }
  rewrite (ensureParent_parent_exists E current fs Directory Hp).
  rewrite (make_and_copy_run E current fs fs1 [OpMkdir current]); [|by apply MkdirAll_new].
  change (filepath.Dir current) with parent.
  rewrite (copyIfNeeded_ok current parent fs1 kc km pc pm).
  2, 3: by apply stat_child_intro.
  2: { apply stat_child_intro; [exact Hpar|]. rewrite Hkeep; [done|].
       by apply (fresh_in_names _ _ kc). }
  2: { apply stat_child_intro; [exact Hpar|]. rewrite Hkeep; [done|].
       by apply (fresh_in_names _ _ km). }
  unfold outcome, final, trace. cbn [fst snd].
  split; [reflexivity|]. split.
  { change (mkdirs (OpStat parent :: [OpMkdir current] ++ _))
      with (current :: mkdirs (mask_reads current parent
                                 ++ copy_write "cpuset.cpus" current kc pc
                                 ++ copy_write "cpuset.mems" current km pm)).
    by rewrite mkdirs_copy. }
  split.
  { rewrite !stat_copy_mask; [exact Hcur | |]; apply not_suffix_longer. }
  split.
  - rewrite lookup_copy_mask_ne; [|discriminate]. by apply lookup_copy_mask_eq.
  - apply lookup_copy_mask_eq. rewrite lookup_copy_mask_ne; [exact Hcm | discriminate].
Qed.

(** Below the cpuset root of the mounted hierarchy the new directory
    takes the root's masks. *)
Lemma ensureParent_new_directory_witness :
  let parent := "cpuset" :: sys_fs_cgroup in
  let r := ensureParent demo_env ("docker" :: parent) demo_fs in
  outcome r = Ok tt /\
  mkdirs (trace r) = ["docker" :: parent] /\
  stat (final r) ("docker" :: parent) = Ok Directory /\
  final r !! ("cpuset.cpus" :: "docker" :: parent) = Some (File (nl "0-3")) /\
  final r !! ("cpuset.mems" :: "docker" :: parent) = Some (File (nl "0")).
Proof.
  intros parent.
  apply (ensureParent_new_directory demo_env "docker" parent demo_fs
           (nl "") (nl "") (nl "0-3") (nl "0")).
  1, 2, 4, 5, 6, 7: vm_compute; reflexivity.
  apply (bool_decide_unpack _). vm_compute. exact I.
Defined.

(** ** Set *)

(** X13. With a mask that is not empty, [Set] of the cpuset controller
    first resolves the directory of the workload.  When the resolution
    fails, that error is the result and nothing else was done: no
    directory is made and no file is read or written.  When it succeeds,
    the call is [SetDir] on the resolved directory with the mask and the
    pid of the workload. *)
Theorem CpusetGroup_Set_resolves_first E d fs :
  CpusetCpus (c d) <> "" ->
  (forall e, data_path E d "cpuset" fs = Err e ->
     CpusetGroup_Set E d fs = (Err e, fs, [OpResolve "cpuset"])) /\
  (forall dir, data_path E d "cpuset" fs = Ok dir ->
     CpusetGroup_Set E d fs
     = (outcome (SetDir E dir (CpusetCpus (c d)) (pid d) fs),
        final (SetDir E dir (CpusetCpus (c d)) (pid d) fs),
        OpResolve "cpuset" :: trace (SetDir E dir (CpusetCpus (c d)) (pid d) fs))).
Proof.
  intros Hmask. unfold CpusetGroup_Set.
  destruct (decide (CpusetCpus (c d) <> "")) as [_|Hn]; [|by destruct Hn].
  unfold bind, d_path. split.
  - intros e He. rewrite He. reflexivity.
  - intros dir Hdir. rewrite Hdir. unfold outcome, final, trace.
    destruct (SetDir E dir (CpusetCpus (c d)) (pid d) fs) as [[r fs'] t]. reflexivity.
Qed.

(** A workload of a controller that the resolver does not know, and the
    workload of the concrete hierarchy. *)
Lemma CpusetGroup_Set_resolves_first_witness :
  let d := {| c := demo_cgroup 0 0 "0-1"; pid := 4217%Z |} in
  CpusetGroup_Set demo_env_unresolved d demo_fs
  = (Err (OtherError "no cpuset mount"), demo_fs, [OpResolve "cpuset"]) /\
  trace (CpusetGroup_Set demo_env d demo_fs)
  = OpResolve "cpuset" :: trace (SetDir demo_env (workload "cpuset") "0-1" 4217 demo_fs).
Proof.
  intros d. split.
  - exact (proj1 (CpusetGroup_Set_resolves_first demo_env_unresolved d demo_fs
                    (fun H => eq_ind "0-1" (fun s => if s is EmptyString then False else True)
                                I "" H))
             (OtherError "no cpuset mount") eq_refl).
  - rewrite (proj2 (CpusetGroup_Set_resolves_first demo_env d demo_fs
                      (fun H => eq_ind "0-1"
                                  (fun s => if s is EmptyString then False else True)
                                  I "" H))
               (workload "cpuset") eq_refl).
    reflexivity.
Defined.

(** ** What ensureParent leaves alone *)

(** X15. On a root with both masks set, below which none of the
    directories down to the target exists, [ensureParent] changes only the
    directories it creates and the files the kernel puts into them: every
    other path, the root's own masks and the directories of other
    workloads among them, holds afterwards what it held before. *)
Theorem ensureParent_frame E (r t : path) fs :
  t <> [] ->
  stat fs r = Ok Directory ->
  masks_set fs r ->
  (forall d, d ∈ new_dirs t r -> fs !! d = None) ->
  (forall x, x ∈ t -> x ∉ (kernel_files E).*1) ->
  "cpuset.cpus" ∈ (kernel_files E).*1 ->
  "cpuset.mems" ∈ (kernel_files E).*1 ->
  forall q : path,
    ~ touched (kernel_files E) (new_dirs t r) q ->
    final (ensureParent E (t ++ r) fs) !! q = fs !! q.
Proof.
  intros Ht Hr Hmr Hnone Hnames Hcpus Hmems q Hq.
  destruct (ensureParent_chain E r Hcpus Hmems t fs Ht Hr Hmr Hnone Hnames)
    as (fs' & tr & Hrun & _ & _ & Hframe).
  rewrite Hrun. by apply Hframe.
Qed.

(** The masks of a sibling workload stay as they are. *)
Lemma ensureParent_frame_witness :
  let r := "cpuset" :: sys_fs_cgroup in
  let fs := <[ "cpuset.cpus" :: "other" :: r := File (nl "2") ]>
            (<[ "other" :: r := Directory ]> demo_fs) in
  final (ensureParent demo_env (["c1"; "docker"] ++ r) fs)
    !! ("cpuset.cpus" :: "other" :: r)
  = fs !! ("cpuset.cpus" :: "other" :: r).
Proof.
  intros r fs.
  apply (ensureParent_frame demo_env r ["c1"; "docker"] fs).
  - discriminate.
  - vm_compute. reflexivity.
  - exists (nl "0-3"), (nl "0"). repeat split; vm_compute; reflexivity.
  - intros d Hd. cbn [new_dirs app] in Hd.
    apply elem_of_cons in Hd as [->|Hd]; [vm_compute; reflexivity|].
    apply list_elem_of_singleton in Hd as ->. vm_compute. reflexivity.
  - intros x Hx.
    apply elem_of_cons in Hx as [->|Hx];
      [|apply list_elem_of_singleton in Hx as ->];
      apply (bool_decide_unpack _); vm_compute; exact I.
  - apply (bool_decide_unpack _). vm_compute. exact I.
  - apply (bool_decide_unpack _). vm_compute. exact I.
  - intros (d & Hd & H). cbn [new_dirs app] in Hd.
    apply elem_of_cons in Hd as [->|Hd];
      [|apply list_elem_of_singleton in Hd as ->];
      destruct H as [H|(f & _ & H)]; discriminate H.
Defined.

(** ** The outcomes of ContainerLimit *)

(** The run of the job for a running container. *)
Lemma ContainerLimit_running E order containers job fs name container :
  Args job = [name] ->
  containers !! name = Some container ->
  IsRunning container = true ->
  ContainerLimit E order containers job fs
  = match SetResources E order (limit_request E job container) (Pid container) fs with
    | (Err err, fs1, t1) =>
        (StatusErr (JobChangeFailed (ID container) err), containers, fs1, t1)
    | (Ok _, fs1, t1) =>
        if GetenvBool job "saveChanges" then
          match ToDisk E (written_back (limit_request E job container) container) with
          | Some err =>
              (StatusErr (JobSaveFailed (ID container) err),
               <[ name := written_back (limit_request E job container) container ]> containers,
               fs1, t1)
          | None =>
              (StatusOK,
               <[ name := written_back (limit_request E job container) container ]> containers,
               fs1, t1)
          end
        else (StatusOK, containers, fs1, t1)
    end.
Proof.
  intros Hargs Hget Hrun. unfold ContainerLimit. rewrite Hargs, Hget.
  replace (negb (IsRunning container)) with false by (by rewrite Hrun).
  reflexivity.
Qed.

(** The run of the job when it does not name one running container. *)
Lemma ContainerLimit_not_running E order containers job fs :
  ~ (exists name container,
       Args job = [name] /\ containers !! name = Some container /\
       IsRunning container = true) ->
  exists e, ContainerLimit E order containers job fs = (StatusErr e, containers, fs, []).
Proof.
  intros Hnot. unfold ContainerLimit.
  destruct (Args job) as [|name [|name' args]] eqn:Hargs; [eauto| |eauto].
  destruct (containers !! name) as [container|] eqn:Hget; [|eauto].
  destruct (IsRunning container) eqn:Hrun; [|simpl; eauto].
  exfalso. apply Hnot. by exists name, container.
Qed.

(** X17. A job that does not name exactly one container that is known
    and running is rejected before anything happens: the status is an
    error, no controller is applied, and the filesystem and the stored
    configurations are as they were. *)
Theorem ContainerLimit_rejects E order containers job fs :
  ~ (exists name container,
       Args job = [name] /\ containers !! name = Some container /\
       IsRunning container = true) ->
  let r := ContainerLimit E order containers job fs in
  job_status r <> StatusOK /\
  job_containers r = containers /\
  job_fs r = fs /\
  job_events r = [].
Proof.
  intros Hnot r. subst r.
  destruct (ContainerLimit_not_running E order containers job fs Hnot) as [e ->].
  repeat split. discriminate.
Qed.

(** A job for a container the daemon does not know. *)
Lemma ContainerLimit_rejects_witness :
  let job := {| Job_Name := "container_limit"; Args := ["db"];
                Getenv := fun _ => "0-1"; GetenvInt64 := fun _ => 1048576%Z;
                GetenvBool := fun _ => true |} in
  let r := ContainerLimit demo_env (supportedSubsystems demo_env) demo_containers job demo_fs in
  job_status r <> StatusOK /\
  job_containers r = demo_containers /\
  job_fs r = demo_fs /\
  job_events r = [].
Proof.
  intros job.
  apply (ContainerLimit_rejects demo_env (supportedSubsystems demo_env) demo_containers
           job demo_fs).
  intros (name & container & Hargs & Hget & _).
  injection Hargs as <-. vm_compute in Hget. discriminate Hget.
Defined.

(** X18. The stored configurations change only when the job names a
    running container, persistence was requested and [SetResources]
    succeeded. *)
Theorem ContainerLimit_changes_config_only_when_saved E order containers job fs :
  job_containers (ContainerLimit E order containers job fs) <> containers ->
  exists name container,
    Args job = [name] /\
    containers !! name = Some container /\
    IsRunning container = true /\
    GetenvBool job "saveChanges" = true /\
    is_ok (outcome (SetResources E order (limit_request E job container)
                      (Pid container) fs)) = true.
Proof.
  intros Hchanged.
  destruct (Args job) as [|name [|name' args]] eqn:Hargs;
    try (exfalso; apply Hchanged; unfold ContainerLimit; rewrite Hargs; reflexivity).
  destruct (containers !! name) as [container|] eqn:Hget;
    [|exfalso; apply Hchanged; unfold ContainerLimit; rewrite Hargs, Hget; reflexivity].
  destruct (IsRunning container) eqn:Hrun;
    [|exfalso; apply Hchanged; unfold ContainerLimit; rewrite Hargs, Hget, Hrun; reflexivity].
  exists name, container. repeat split; try assumption.
  - destruct (GetenvBool job "saveChanges") eqn:Hsave; [reflexivity|].
    exfalso. apply Hchanged.
    rewrite (ContainerLimit_running E order containers job fs name container Hargs Hget Hrun).
    rewrite Hsave.
    destruct (SetResources E order _ (Pid container) fs) as [[[d|e] fs1] t1]; reflexivity.
  - destruct (is_ok (outcome (SetResources E order (limit_request E job container)
                                (Pid container) fs))) eqn:Hok; [reflexivity|].
    exfalso. apply Hchanged.
    rewrite (ContainerLimit_running E order containers job fs name container Hargs Hget Hrun).
    unfold outcome in Hok.
    destruct (SetResources E order _ (Pid container) fs) as [[[d|e] fs1] t1];
      [discriminate Hok | reflexivity].
Qed.

Lemma ContainerLimit_changes_config_only_when_saved_witness :
  let job := demo_job 536870912 0 "" true in
  exists name container,
    Args job = [name] /\
    demo_containers !! name = Some container /\
    IsRunning container = true /\
    GetenvBool job "saveChanges" = true /\
    is_ok (outcome (SetResources demo_env (supportedSubsystems demo_env)
                      (limit_request demo_env job container) (Pid container) demo_fs)) = true.
Proof.
  intros job.
  apply (ContainerLimit_changes_config_only_when_saved demo_env
           (supportedSubsystems demo_env) demo_containers job demo_fs).
  intros Heq.
  assert (H : Config_Memory <$> (Config_of <$>
                (job_containers (ContainerLimit demo_env (supportedSubsystems demo_env)
                   demo_containers job demo_fs) !! "web"))
              = Config_Memory <$> (Config_of <$> (demo_containers !! "web")))
    by (rewrite Heq; reflexivity).
  vm_compute in H. discriminate H.
Defined.

(** X19. The fields are written back to the container before it is
    saved: when [ToDisk] fails, the job reports the failure, and the
    configuration the daemon holds has the new values all the same. *)
Theorem ContainerLimit_save_failure_keeps_new_values
    E order containers job fs name container err :
  Args job = [name] ->
  containers !! name = Some container ->
  IsRunning container = true ->
  GetenvBool job "saveChanges" = true ->
  is_ok (outcome (SetResources E order (limit_request E job container)
                    (Pid container) fs)) = true ->
  ToDisk E (written_back (limit_request E job container) container) = Some err ->
  let r := ContainerLimit E order containers job fs in
  job_status r = StatusErr (JobSaveFailed (ID container) err) /\
  job_containers r !! name
  = Some (written_back (limit_request E job container) container) /\
  job_fs r = final (SetResources E order (limit_request E job container)
                      (Pid container) fs).
Proof.
  intros Hargs Hget Hrun Hsave Hok Hdisk r. subst r.
  rewrite (ContainerLimit_running E order containers job fs name container Hargs Hget Hrun).
  unfold outcome, final in *.
  destruct (SetResources E order _ (Pid container) fs) as [[[d|e] fs1] t1];
    [|discriminate Hok].
  rewrite Hsave, Hdisk. unfold job_status, job_containers, job_fs. cbn [fst snd].
  repeat split. apply lookup_insert_eq.
Qed.

Lemma ContainerLimit_save_failure_keeps_new_values_witness :
  let job := demo_job 536870912 0 "" true in
  let r := ContainerLimit demo_env_disk_full (supportedSubsystems demo_env_disk_full)
             demo_containers job demo_fs in
  job_status r = StatusErr (JobSaveFailed "c1" (OtherError "no space left on device")) /\
  Config_Memory <$> (Config_of <$> (job_containers r !! "web")) = Some 536870912%Z.
Proof.
  intros job r.
  destruct (ContainerLimit_save_failure_keeps_new_values demo_env_disk_full
              (supportedSubsystems demo_env_disk_full) demo_containers job demo_fs "web"
              {| ID := "c1"; Pid := 4217%Z; IsRunning := true;
                 Config_of := {| Config_Memory := 1024; Config_CpuShares := 512;
                                 Config_Cpuset := "0-3" |} |}
              (OtherError "no space left on device"))
    as (Hst & Hc & _).
  - reflexivity.
  - vm_compute. reflexivity.
  - reflexivity.
  - reflexivity.
  - vm_compute. reflexivity.
  - reflexivity.
  - split; [exact Hst|]. fold r in Hc. rewrite Hc. reflexivity.
Defined.

Lemma write_back_unset cg cfg :
  Memory cg = 0%Z -> CpuShares cg = 0%Z -> CpusetCpus cg = "" ->
  write_back cg cfg = cfg.
Proof.
  intros Hm Hs Hc. unfold write_back. rewrite Hm, Hs, Hc.
  repeat case_decide; try done.
Qed.

(** X20. A request with all three fields unset changes no stored
    configuration, whether persistence was requested or not. *)
Theorem ContainerLimit_unset_request_keeps_config E order containers job fs :
  GetenvInt64 job "memory" = 0%Z ->
  GetenvInt64 job "cpuShares" = 0%Z ->
  Getenv job "cpuset" = "" ->
  job_containers (ContainerLimit E order containers job fs) = containers.
Proof.
  intros Hm Hs Hc.
  destruct (Args job) as [|name [|name' args]] eqn:Hargs;
    try (unfold ContainerLimit; rewrite Hargs; reflexivity).
  destruct (containers !! name) as [container|] eqn:Hget;
    [|unfold ContainerLimit; rewrite Hargs, Hget; reflexivity].
  destruct (IsRunning container) eqn:Hrun;
    [|unfold ContainerLimit; rewrite Hargs, Hget, Hrun; reflexivity].
  rewrite (ContainerLimit_running E order containers job fs name container Hargs Hget Hrun).
  assert (Hsame : written_back (limit_request E job container) container = container).
  { unfold written_back. rewrite write_back_unset by assumption. by destruct container. }
  rewrite Hsame.
  destruct (SetResources E order _ (Pid container) fs) as [[[d|e] fs1] t1]; [|reflexivity].
  destruct (GetenvBool job "saveChanges"); [|reflexivity].
  destruct (ToDisk E container); unfold job_containers; cbn [fst snd]; by apply insert_id.
Qed.

Lemma ContainerLimit_unset_request_keeps_config_witness :
  job_containers (ContainerLimit demo_env (supportedSubsystems demo_env) demo_containers
                    (demo_job 0 0 "" true) demo_fs)
  = demo_containers.
Proof.
  apply (ContainerLimit_unset_request_keeps_config demo_env (supportedSubsystems demo_env)
           demo_containers (demo_job 0 0 "" true) demo_fs); reflexivity.
Defined.

(** X21. The job ends with [StatusOK] exactly when it names one running
    container, [SetResources] succeeds for it and, where persistence was
    requested, the container could be saved. *)
Theorem ContainerLimit_StatusOK_iff E order containers job fs :
  job_status (ContainerLimit E order containers job fs) = StatusOK <->
  exists name container,
    Args job = [name] /\
    containers !! name = Some container /\
    IsRunning container = true /\
    is_ok (outcome (SetResources E order (limit_request E job container)
                      (Pid container) fs)) = true /\
    (GetenvBool job "saveChanges" = true ->
     ToDisk E (written_back (limit_request E job container) container) = None).
Proof.
  split.
  - intros Hok.
    destruct (Args job) as [|name [|name' args]] eqn:Hargs;
      try (unfold ContainerLimit in Hok; rewrite Hargs in Hok; discriminate Hok).
    destruct (containers !! name) as [container|] eqn:Hget;
      [|unfold ContainerLimit in Hok; rewrite Hargs, Hget in Hok; discriminate Hok].
    destruct (IsRunning container) eqn:Hrun;
      [|unfold ContainerLimit in Hok; rewrite Hargs, Hget, Hrun in Hok; discriminate Hok].
    exists name, container.
    rewrite (ContainerLimit_running E order containers job fs name container Hargs Hget Hrun)
      in Hok.
    unfold outcome.
    destruct (SetResources E order _ (Pid container) fs) as [[[d|e] fs1] t1];
      [|discriminate Hok].
    repeat split; try assumption. intros Hsave. rewrite Hsave in Hok.
    destruct (ToDisk E _); [discriminate Hok | reflexivity].
  - intros (name & container & Hargs & Hget & Hrun & Hok & Hdisk).
    rewrite (ContainerLimit_running E order containers job fs name container Hargs Hget Hrun).
    unfold outcome in Hok.
    destruct (SetResources E order _ (Pid container) fs) as [[[d|e] fs1] t1];
      [|discriminate Hok].
    destruct (GetenvBool job "saveChanges"); [|reflexivity].
    rewrite Hdisk by reflexivity. reflexivity.
Qed.
